(** * RAGScope: the self-reflective retrieval loop and the adaptive router

    A shallow embedding of [Flows/SelfFlow.py], [AdaptiveFlow.py] and
    [RotueQuery.py].  The flows are plain Python methods over a state dict;
    everything they compute is decided by a retry counter, by emptiness of the
    passage list and by the answers of external services (vector index, LLM
    graders, LLM generator, prompt hub, web search).  The services are not
    part of the repository: they are modelled as an oracle that is asked one
    call at a time and either returns a value or raises, and every call is
    recorded in a log so that "no grader is invoked" is a statement about the
    log. *)

From Stdlib Require Import ZArith Lia Ascii.
From stdpp Require Import base list strings pretty.

Local Open Scope string_scope.
Local Open Scope Z_scope.
Local Open Scope list_scope.

(** ** Values exchanged with the external services *)

(** [langchain_core.documents.Document]: only [page_content] is ever read or
    written by the flows. *)
Record Document := mkDocument { page_content : string }.

(** The two system prompts [SelfFlow.transform_query] chooses between. *)
Inductive RewritePrompt :=
| ImprovedQuestion      (* "... Formulate an improved question." *)
| SimplerBroaderQuestion (* "... Formulate a much simpler, broader question ..." *).

(** [RouteQuery.datasource] is a [Literal["self-flow", "web_search"]]: the
    structured-output parser validates the field, so a [RouteQuery] object
    carries one of these two strings and nothing else. *)
Inductive Datasource := self_flow | web_search.

Definition datasource_value (d : Datasource) : string :=
  match d with
  | self_flow => "self-flow"
  | web_search => "web_search"
  end.

Record RouteQuery := mkRouteQuery { datasource : Datasource }.

(** One hit of the web search tool: a dict read at key ["content"]. *)
Record SearchHit := mkSearchHit { content : string }.

(** What is handed to the RAG chain as ["context"]: the self-reflective loop
    passes its passage list, the web path passes whatever its state holds
    under ["documents"], which is a list before [search_web] ran and a single
    [Document] after. *)
Inductive Passages :=
| PassageList (l : list Document)
| SinglePassage (d : Document).

(** The external calls of the two flows, with the arguments the source
    passes. *)
Inductive Call :=
| CompareEmbeddings (user_prompt : string)
| RetrievalGrader (question document : string)
| HallucinationGrader (documents : list Document) (generation : string)
| AnswerGrader (question generation : string)
| HubPull (name : string)
| RagChain (prompt : string) (context : Passages) (question : string)
| QuestionRewriter (system : RewritePrompt) (question : string)
| QuestionRouter (question : string)
| WebQuestionRewriter (question : string)
| WebSearchTool (query : string).

(** The type of the value a call returns.  Graders answer with their
    [binary_score]. *)
Definition Resp (c : Call) : Type :=
  match c with
  | CompareEmbeddings _ => list Document
  | RetrievalGrader _ _ => string
  | HallucinationGrader _ _ => string
  | AnswerGrader _ _ => string
  | HubPull _ => string
  | RagChain _ _ _ => string
  | QuestionRewriter _ _ => string
  | QuestionRouter _ => RouteQuery
  | WebQuestionRewriter _ => string
  | WebSearchTool _ => list SearchHit
  end.

(** ** Calls that return or raise *)

Definition Exn := string.

Inductive Outcome (A : Type) :=
| Returns (a : A)
| Raises (e : Exn).
Arguments Returns {A} a.
Arguments Raises {A} e.

(** The outside world: the answer to the [n]-th external call of a run.  The
    same call may be answered differently at different times. *)
Definition Oracle := nat -> forall c : Call, Outcome (Resp c).

(** A computation reads the oracle, extends the log of calls made so far and
    returns or raises. *)
Definition M (A : Type) := Oracle -> list Call -> Outcome A * list Call.

Definition ret {A} (a : A) : M A := fun _ log => (Returns a, log).

Definition raise {A} (e : Exn) : M A := fun _ log => (Raises e, log).

Definition bind {A B} (m : M A) (k : A -> M B) : M B :=
  fun o log =>
    match m o log with
    | (Returns a, log') => k a o log'
    | (Raises e, log') => (Raises e, log')
    end.

(** [try: m except Exception as e: h e] *)
Definition try_except {A} (m : M A) (h : Exn -> M A) : M A :=
  fun o log =>
    match m o log with
    | (Returns a, log') => (Returns a, log')
    | (Raises e, log') => h e o log'
    end.

(** [.invoke(...)] on an external client. *)
Definition invoke (c : Call) : M (Resp c) :=
  fun o log => (o (List.length log) c, log ++ [c]).

Notation "x <- m ;; k" := (bind m (fun x => k))
  (at level 100, m at next level, right associativity).

(** What a finished computation returned or raised. *)
Definition outcome_of {A} (r : Outcome A * list Call) : Outcome A := fst r.

(** ** The self-reflective loop, [Flows/SelfFlow.py] *)

Module SelfFlow.

(** [SelfState].  Every node reads ["question"] and ["documents"] by
    subscript and ["retry_count"] through [state.get("retry_count", 0)], so
    that key alone may be missing.  Node functions are given with the
    graph's channel update applied: a key that the returned dict does not
    carry (["generation"], for every node but [generate]) keeps the value of
    the incoming state. *)
Record SelfState := mkState {
  retry_count : option Z;
  question : string;
  generation : string;
  documents : list Document
}.

(** [state.get("retry_count", 0)] *)
Definition get_retry_count (state : SelfState) : Z :=
  default 0 (retry_count state).

Definition rag_prompt_name : string := "rlm/rag-prompt".

Definition retrieve (state : SelfState) : M SelfState :=
  let question := question state in
  let retry_count := get_retry_count state in
  documents <- invoke (CompareEmbeddings question) ;;
  ret {| retry_count := Some retry_count;
         question := question;
         generation := generation state;
         documents := documents |}.

Definition no_documents_answer (question : string) : string :=
  "I don't have specific information in my knowledge base about: '" +:+
  question +:+
  "'. This question may require information that's not available in my current documents.".

Definition generation_error_answer (question : string) : string :=
  "I encountered an error while generating a response for: '" +:+ question +:+ "'".

Definition generate (state : SelfState) : M SelfState :=
  let question := question state in
  let documents := documents state in
  let retry_count := get_retry_count state in
  generation <-
    match documents with
    | [] => ret (no_documents_answer question)
    | _ :: _ =>
        try_except
          (prompt <- invoke (HubPull rag_prompt_name) ;;
           invoke (RagChain prompt (PassageList documents) question))
          (fun _ => ret (generation_error_answer question))
    end ;;
  ret {| retry_count := Some retry_count;
         question := question;
         generation := generation;
         documents := documents |}.

(** The body of [for i, d in enumerate(documents)] in [grade_documents],
    threading [filtered_docs]. *)
Fixpoint grade_each (question : string) (documents filtered_docs : list Document)
  : M (list Document) :=
  match documents with
  | [] => ret filtered_docs
  | d :: rest =>
      filtered_docs' <-
        try_except
          (grade <- invoke (RetrievalGrader question (page_content d)) ;;
           if String.eqb grade "yes"
           then ret (filtered_docs ++ [d])
           else ret filtered_docs)
          (fun _ => ret (filtered_docs ++ [d])) ;;
      grade_each question rest filtered_docs'
  end.

Definition grade_documents (state : SelfState) : M SelfState :=
  let question := question state in
  let documents := documents state in
  let retry_count := get_retry_count state in
  if retry_count >=? 2 then
    ret {| retry_count := Some retry_count;
           question := question;
           generation := generation state;
           documents := documents |}
  else
    filtered_docs <- grade_each question documents [] ;;
    ret {| retry_count := Some retry_count;
           question := question;
           generation := generation state;
           documents := filtered_docs |}.

Definition transform_query (state : SelfState) : M SelfState :=
  let question := question state in
  let documents := documents state in
  let retry_count := get_retry_count state + 1 in
  let system :=
    if retry_count >=? 2 then SimplerBroaderQuestion else ImprovedQuestion in
  better_question <-
    try_except
      (invoke (QuestionRewriter system question))
      (fun _ => ret question) ;;
  ret {| retry_count := Some retry_count;
         question := better_question;
         generation := generation state;
         documents := documents |}.

(** *** Edges *)

Definition decide_to_generate (state : SelfState) : string :=
  let filtered_documents := documents state in
  let retry_count := get_retry_count state in
  match filtered_documents with
  | [] =>
      if retry_count >=? 3 then "generate" else "transform_query"
  | _ :: _ => "generate"
  end.

(** [not documents] *)
Definition no_documents (documents : list Document) : bool :=
  match documents with
  | [] => true
  | _ :: _ => false
  end.

Definition grade_generation_v_documents_and_question (state : SelfState)
  : M string :=
  let question := question state in
  let documents := documents state in
  let generation := generation state in
  let retry_count := get_retry_count state in
  if (retry_count >=? 2) || no_documents documents then
    ret "useful"
  else
    try_except
      (grade <- invoke (HallucinationGrader documents generation) ;;
       if String.eqb grade "yes" then
         grade <- invoke (AnswerGrader question generation) ;;
         if String.eqb grade "yes" then ret "useful" else ret "not useful"
       else
         ret "not supported")
      (fun _ => ret "useful").

(** *** The graph of [generate_graph] *)

Inductive Node :=
| node_retrieve
| node_grade_documents
| node_generate
| node_transform_query
| END.

(** The path map of the conditional edge out of ["grade_documents"]. *)
Definition after_grade_documents (label : string) : option Node :=
  if String.eqb label "transform_query" then Some node_transform_query
  else if String.eqb label "generate" then Some node_generate
  else None.

(** The path map of the conditional edge out of ["generate"]. *)
Definition after_generate (label : string) : option Node :=
  if String.eqb label "not supported" then Some node_generate
  else if String.eqb label "useful" then Some END
  else if String.eqb label "not useful" then Some node_transform_query
  else None.

(** [add_edge(START, "retrieve")], [add_edge("retrieve", "grade_documents")]
    and [add_edge("transform_query", "retrieve")]. *)
Definition entry_point : Node := node_retrieve.
Definition after_retrieve : Node := node_grade_documents.
Definition after_transform_query : Node := node_retrieve.

Definition follow (target : option Node) (state : SelfState)
  : M (Node * SelfState) :=
  match target with
  | Some n => ret (n, state)
  | None => raise "unknown branch label"
  end.

(** One superstep of the compiled graph: run the node, then take the edge
    that leaves it. *)
Definition step (n : Node) (state : SelfState) : M (Node * SelfState) :=
  match n with
  | node_retrieve =>
      state' <- retrieve state ;;
      ret (after_retrieve, state')
  | node_grade_documents =>
      state' <- grade_documents state ;;
      follow (after_grade_documents (decide_to_generate state')) state'
  | node_generate =>
      state' <- generate state ;;
      label <- grade_generation_v_documents_and_question state' ;;
      follow (after_generate label) state'
  | node_transform_query =>
      state' <- transform_query state ;;
      ret (after_transform_query, state')
  | END => ret (END, state)
  end.

(** [k] supersteps from a node. *)
Fixpoint steps (k : nat) (n : Node) (state : SelfState)
  : M (Node * SelfState) :=
  match k with
  | O => ret (n, state)
  | S k' =>
      p <- step n state ;;
      steps k' (fst p) (snd p)
  end.

(** The state [run] hands to [graph.invoke]. *)
Definition initial_state (question : string) : SelfState :=
  {| retry_count := Some 0;
     question := question;
     generation := "";
     documents := [] |}.

(** *** Running the graph *)

(** [self.graph.invoke(state, {"recursion_limit": n})], from a given node.
    The compiled graph runs one superstep after the other until it reaches
    [END]; when the limit is used up before that it raises
    [GraphRecursionError].  The executor belongs to the graph library: the
    limit is kept as an argument, and what is proved about a run is proved
    for every limit, or for every limit above what the path needs. *)
Fixpoint graph_invoke (recursion_limit : nat) (n : Node) (state : SelfState)
  {struct recursion_limit} : M SelfState :=
  match n with
  | END => ret state
  | _ =>
      match recursion_limit with
      | O => raise "GraphRecursionError"
      | S limit =>
          p <- step n state ;;
          graph_invoke limit (fst p) (snd p)
      end
  end.

(** [config = {"recursion_limit": 15}] *)
Definition recursion_limit : nat := 15.

Definition technical_issue_answer (question : string) : string :=
  "I apologize, but I encountered a technical issue while processing your question: '" +:+
  question +:+
  "'. This may be due to the question being outside my knowledge base or a system limitation.".

(** The dict [run] returns when [graph.invoke] raises. *)
Definition fallback_state (question : string) : SelfState :=
  {| retry_count := Some 0;
     question := question;
     generation := technical_issue_answer question;
     documents := [] |}.

(** [run], with the step limit as an argument. *)
Definition run_within (limit : nat) (question : string) : M SelfState :=
  try_except
    (graph_invoke limit entry_point (initial_state question))
    (fun _ => ret (fallback_state question)).

Definition run (question : string) : M SelfState :=
  run_within recursion_limit question.

End SelfFlow.

(** ** The router and the web-search path, [AdaptiveFlow.py] *)

Module AdaptiveFlow.

(** [AdaptiveState].  ["documents"] is read with
    [state.get("documents", [])] by [transform_query] and by subscript by
    [generate_answer], so the key may be missing; it holds a list until
    [search_web] replaces it by one [Document]. *)
Record AdaptiveState := mkState {
  question : string;
  generation : string;
  documents : option Passages
}.

Definition route_query (state : AdaptiveState) : M string :=
  next_step <- invoke (QuestionRouter (question state)) ;;
  if String.eqb (datasource_value (datasource next_step)) "web-search"
  then ret "web_search"
  else ret "call_self_rag".

Definition transform_query (state : AdaptiveState) : M AdaptiveState :=
  let question := question state in
  let documents := default (PassageList []) (documents state) in
  better_question <- invoke (WebQuestionRewriter question) ;;
  ret {| question := better_question;
         generation := generation state;
         documents := Some documents |}.

Definition newline : string := String (Ascii.ascii_of_nat 10) EmptyString.

Definition search_web (state : AdaptiveState) : M AdaptiveState :=
  let question := question state in
  try_except
    (docs <- invoke (WebSearchTool question) ;;
     let web_results := String.concat newline (map content docs) in
     let web_results := mkDocument web_results in
     ret {| question := question;
            generation := generation state;
            documents := Some (SinglePassage web_results) |})
    (fun _ =>
       ret {| question := question;
              generation := generation state;
              documents := Some (SinglePassage (mkDocument "")) |}).

Definition generation_failed_answer (question : string) : string :=
  "I couldn't generate a proper answer for: " +:+ question.

Definition generate_answer (state : AdaptiveState) : M AdaptiveState :=
  let question := question state in
  match documents state with
  | None => raise "KeyError: 'documents'"
  | Some documents =>
      try_except
        (prompt <- invoke (HubPull SelfFlow.rag_prompt_name) ;;
         generation <- invoke (RagChain prompt documents question) ;;
         ret {| question := question;
                generation := generation;
                documents := Some documents |})
        (fun _ =>
           ret {| question := question;
                  generation := generation_failed_answer question;
                  documents := Some documents |})
  end.

(** *** The graph of [generate_graph] *)

Inductive Node :=
| node_call_self_rag
| node_generate_answer
| node_web_search
| node_transform_query
| END.

(** The path map of the conditional edge out of [START]. *)
Definition after_start (label : string) : option Node :=
  if String.eqb label "web_search" then Some node_transform_query
  else if String.eqb label "call_self_rag" then Some node_call_self_rag
  else None.

(** The unconditional edges. *)
Definition next_node (n : Node) : Node :=
  match n with
  | node_call_self_rag => END
  | node_transform_query => node_web_search
  | node_web_search => node_generate_answer
  | node_generate_answer => END
  | END => END
  end.

(** The node the run starts in: [route_query] picks the label, the path map
    turns it into a node. *)
Definition first_node (state : AdaptiveState) : M (option Node) :=
  label <- route_query state ;;
  ret (after_start label).

(** The state [run] hands to [graph.invoke]. *)
Definition initial_state (question : string) : AdaptiveState :=
  {| question := question;
     generation := "";
     documents := Some (PassageList []) |}.

(** *** The self-reflective branch and [run] *)

Definition self_rag_issue_answer (question : string) : string :=
  "I encountered an issue processing your question about: " +:+ question.

Definition call_self_rag (state : AdaptiveState) : M AdaptiveState :=
  let question := question state in
  try_except
    (self_flow_state <- SelfFlow.run question ;;
     ret {| question := SelfFlow.question self_flow_state;
            generation := SelfFlow.generation self_flow_state;
            documents :=
              Some (PassageList (SelfFlow.documents self_flow_state)) |})
    (fun _ =>
       ret {| question := question;
              generation := self_rag_issue_answer question;
              documents := Some (PassageList []) |}).

(** The function behind each node name. *)
Definition run_node (n : Node) (state : AdaptiveState) : M AdaptiveState :=
  match n with
  | node_call_self_rag => call_self_rag state
  | node_generate_answer => generate_answer state
  | node_web_search => search_web state
  | node_transform_query => transform_query state
  | END => ret state
  end.

(** The compiled graph from a given node: run the node, follow its edge,
    until [END] or until the step limit of the graph library is used up. *)
Fixpoint graph_invoke_from (recursion_limit : nat) (n : Node)
  (state : AdaptiveState) {struct recursion_limit} : M AdaptiveState :=
  match n with
  | END => ret state
  | _ =>
      match recursion_limit with
      | O => raise "GraphRecursionError"
      | S limit =>
          state' <- run_node n state ;;
          graph_invoke_from limit (next_node n) state'
      end
  end.

(** [self.graph.invoke(state)]: the conditional edge out of [START] picks
    the first node. *)
Definition graph_invoke (recursion_limit : nat) (state : AdaptiveState)
  : M AdaptiveState :=
  target <- first_node state ;;
  match target with
  | Some n => graph_invoke_from recursion_limit n state
  | None => raise "unknown branch label"
  end.

Definition processing_error_answer (question : string) : string :=
  "I encountered an error processing your question: " +:+ question.

(** The dict [run] returns when [graph.invoke] raises. *)
Definition fallback_state (question : string) : AdaptiveState :=
  {| question := question;
     generation := processing_error_answer question;
     documents := Some (PassageList []) |}.

(** [run].  It passes no config, so the step limit is the default of the
    graph library; it is kept as an argument. *)
Definition run_within (limit : nat) (question : string) : M AdaptiveState :=
  try_except
    (graph_invoke limit (initial_state question))
    (fun _ => ret (fallback_state question)).

(** What [call_self_rag] makes of the state of the self-reflective loop. *)
Definition of_self_state (s : SelfFlow.SelfState) : AdaptiveState :=
  {| question := SelfFlow.question s;
     generation := SelfFlow.generation s;
     documents := Some (PassageList (SelfFlow.documents s)) |}.

End AdaptiveFlow.

(** ** The corrective flow, [Flows/CragFlow.py] *)

Module CragFlow.

(** [CragState]; every key is read by subscript, and [run] seeds all four. *)
Record CragState := mkState {
  question : string;
  generation : string;
  web_search : string;
  documents : list Document
}.

Definition retriever (state : CragState) : M CragState :=
  let question := question state in
  documents <- invoke (CompareEmbeddings question) ;;
  ret {| question := question;
         generation := generation state;
         web_search := web_search state;
         documents := documents |}.

Definition generate (state : CragState) : M CragState :=
  let question := question state in
  let documents := documents state in
  prompt <- invoke (HubPull SelfFlow.rag_prompt_name) ;;
  generation <- invoke (RagChain prompt (PassageList documents) question) ;;
  ret {| question := question;
         generation := generation;
         web_search := web_search state;
         documents := documents |}.

(** The body of [for d in documents] in [grade_documents], threading
    [filtered_docs] and [web_search].  The grader is the same kind of call
    as in the self-reflective loop, under a stricter prompt. *)
Fixpoint grade_each (question : string) (documents filtered_docs : list Document)
  (web_search : string) : M (list Document * string) :=
  match documents with
  | [] => ret (filtered_docs, web_search)
  | d :: rest =>
      grade <- invoke (RetrievalGrader question (page_content d)) ;;
      if String.eqb grade "yes"
      then grade_each question rest (filtered_docs ++ [d]) web_search
      else grade_each question rest filtered_docs "Yes"
  end.

Definition grade_documents (state : CragState) : M CragState :=
  let question := question state in
  let documents := documents state in
  graded <- grade_each question documents [] "No" ;;
  ret {| question := question;
         generation := generation state;
         web_search := snd graded;
         documents := fst graded |}.

Definition decide_to_generate (state : CragState) : string :=
  let web_search := web_search state in
  if String.eqb web_search "Yes" then "transform_query" else "generate".

(** The nodes the conditional edge out of ["grade_documents"] can lead to. *)
Inductive Target := node_transform_query | node_generate.

Definition after_grade_documents (label : string) : option Target :=
  if String.eqb label "transform_query" then Some node_transform_query
  else if String.eqb label "generate" then Some node_generate
  else None.

(** The rewrite for web search: the same kind of call as in the adaptive
    flow. *)
Definition transform_query (state : CragState) : M CragState :=
  let question := question state in
  let documents := documents state in
  better_question <- invoke (WebQuestionRewriter question) ;;
  ret {| question := better_question;
         generation := generation state;
         web_search := web_search state;
         documents := documents |}.


End CragFlow.

(** ** Uploading the dataset, [PineConeHandler.py] *)

Module PineConeHandler.

Definition batch_size : nat := 95.

(** [range(0, stop, step)] for a positive [step]. *)
Definition range_from_zero (stop step : nat) : list nat :=
  map (fun k => k * step)%nat (seq 0 ((stop + step - 1) / step)).

(** [l[start:stop]] for [start <= stop]. *)
Definition slice {A} (l : list A) (start stop : nat) : list A :=
  take (stop - start) (drop start l).

(** The [records=] arguments of the successive [upsert_records] calls of
    [upload_prsdm_dataset], in order, when no call raises (a call that
    raises ends the loop: there is no handler). *)
Definition batches {A} (records : list A) : list (list A) :=
  map (fun i => slice records i (i + batch_size))
    (range_from_zero (List.length records) batch_size).

(** One record of [upload_prsdm_dataset]. *)
Record UpsertRecord := mkRecord {
  _id : string;
  text : string;
  category : string;
  question : string
}.

(** [f"qa-{idx}-chunk-{j}"], for the row number [idx] that [df.iterrows()]
    yields and the chunk number [j] of [enumerate]. *)
Definition record_id (idx j : nat) : string :=
  "qa-" +:+ pretty idx +:+ "-chunk-" +:+ pretty j.

(** [f"Q: {q}\nA: {a}"] *)
Definition combined_text (q a : string) : string :=
  "Q: " +:+ q +:+ String (Ascii.ascii_of_nat 10) "A: " +:+ a.

Section Records.
(** [self.splitter.split_text], the text splitter of the library. *)
Variable split_text : string -> list string.

(** The records appended for one row, a pair of the columns ["Question"]
    and ["Answer"]. *)
Definition row_records (idx : nat) (row : string * string)
  : list UpsertRecord :=
  let q := fst row in
  let a := snd row in
  let chunks := split_text (combined_text q a) in
  imap (fun j chunk =>
          {| _id := record_id idx j;
             text := chunk;
             category := "ml-qa";
             question := q |}) chunks.

(** The list [records] once the loop over the rows has ended. *)
Definition dataset_records (rows : list (string * string))
  : list UpsertRecord :=
  concat (imap row_records rows).

End Records.

End PineConeHandler.

(** ** What the grading stage is expected to keep *)

(** The passages the relevance grader labels ["yes"], when the passages are
    graded in order starting at external call number [n]. *)
Fixpoint graded_yes (o : Oracle) (n : nat) (question : string)
  (documents : list Document) : list Document :=
  match documents with
  | [] => []
  | d :: rest =>
      match o n (RetrievalGrader question (page_content d)) with
      | Returns grade =>
          if String.eqb grade "yes"
          then d :: graded_yes o (S n) question rest
          else graded_yes o (S n) question rest
      | Raises _ => graded_yes o (S n) question rest
      end
  end.

(** The passages the relevance grader labels ["yes"] together with those
    whose grading call raises. *)
Fixpoint graded_yes_or_failed (o : Oracle) (n : nat) (question : string)
  (documents : list Document) : list Document :=
  match documents with
  | [] => []
  | d :: rest =>
      match o n (RetrievalGrader question (page_content d)) with
      | Returns grade =>
          if String.eqb grade "yes"
          then d :: graded_yes_or_failed o (S n) question rest
          else graded_yes_or_failed o (S n) question rest
      | Raises _ => d :: graded_yes_or_failed o (S n) question rest
      end
  end.

(** The grading calls made for a passage list, in order. *)
Definition grading_calls (question : string) (documents : list Document)
  : list Call :=
  map (fun d => RetrievalGrader question (page_content d)) documents.

(** ** Sample worlds *)

(** Every service is down. *)
Definition all_raise : Oracle := fun _ _ => Raises "service unavailable".

(** Every service answers; the graders' label and the router's choice depend
    on the call number. *)
Definition answering (grade : nat -> string) (route : Datasource)
  (hits : list Document) : Oracle :=
  fun n c =>
    match c return Outcome (Resp c) with
    | CompareEmbeddings _ => Returns hits
    | RetrievalGrader _ _ => Returns (grade n)
    | HallucinationGrader _ _ => Returns (grade n)
    | AnswerGrader _ _ => Returns (grade n)
    | HubPull _ => Returns "prompt"
    | RagChain _ _ q => Returns ("answer to " +:+ q)
    | QuestionRewriter _ q => Returns ("rewritten " +:+ q)
    | QuestionRouter _ => Returns (mkRouteQuery route)
    | WebQuestionRewriter q => Returns ("web " +:+ q)
    | WebSearchTool _ => Returns [mkSearchHit "first"; mkSearchHit "second"]
    end.

(** The services answer, except that the call numbered [k] raises. *)
Definition failing_at (k : nat) (o : Oracle) : Oracle :=
  fun n c => if Nat.eqb n k then Raises "timeout" else o n c.

Definition doc_a : Document := mkDocument "alpha".
Definition doc_b : Document := mkDocument "beta".
Definition doc_c : Document := mkDocument "gamma".

(** Every service answers, by the kind of the call only. *)
Definition scripted (hits : list Document)
  (relevance hallucination answer : string) : Oracle :=
  fun _ c =>
    match c return Outcome (Resp c) with
    | CompareEmbeddings _ => Returns hits
    | RetrievalGrader _ _ => Returns relevance
    | HallucinationGrader _ _ => Returns hallucination
    | AnswerGrader _ _ => Returns answer
    | HubPull _ => Returns "prompt"
    | RagChain _ _ q => Returns ("answer to " +:+ q)
    | QuestionRewriter _ q => Returns ("rewritten " +:+ q)
    | QuestionRouter _ => Returns (mkRouteQuery web_search)
    | WebQuestionRewriter q => Returns ("web " +:+ q)
    | WebSearchTool _ => Returns []
    end.

(** ** Kinds of calls in a log *)

Definition is_rewrite (c : Call) : bool :=
  match c with
  | QuestionRewriter _ _ => true
  | _ => false
  end.

Definition is_web (c : Call) : bool :=
  match c with
  | WebQuestionRewriter _ | WebSearchTool _ => true
  | _ => false
  end.

(** The calls of the self-reflective loop other than query rewriting. *)
Definition is_quiet (c : Call) : bool :=
  match c with
  | CompareEmbeddings _ | RetrievalGrader _ _ | HallucinationGrader _ _
  | AnswerGrader _ _ | HubPull _ | RagChain _ _ _ => true
  | _ => false
  end.

Definition is_loop_call (c : Call) : bool := is_quiet c || is_rewrite c.


(** How many times the rewriter was asked. *)
Definition rewrites (log : list Call) : nat :=
  List.length (List.filter is_rewrite log).

(** A computation only ever adds calls of kind [P] to the log, whether it
    returns or raises. *)
Definition extends_by (P : Call -> bool) {A} (m : M A) : Prop :=
  forall o log, exists ext,
    snd (m o log) = log ++ ext /\ forallb P ext = true.

(** A string without the character [-]. *)
Fixpoint no_dash (s : string) : Prop :=
  match s with
  | EmptyString => True
  | String c rest => c <> "-"%char /\ no_dash rest
  end.

(** * Properties *)

(** ** Comparisons on the retry counter *)

Lemma geb_true (a b : Z) : b <= a -> (a >=? b) = true.
Proof. intros H. rewrite Z.geb_leb. now apply Z.leb_le. Qed.

Lemma geb_false (a b : Z) : a < b -> (a >=? b) = false.
Proof. intros H. rewrite Z.geb_leb. now apply Z.leb_gt. Qed.

Ltac retry_cases :=
  repeat match goal with
  | H : ?b <= ?a |- context [?a >=? ?b] => rewrite (geb_true a b H)
  | H : ?a < ?b |- context [?a >=? ?b] => rewrite (geb_false a b H)
  end.

Ltac run_monad :=
  unfold bind, try_except, invoke, ret, raise; simpl.

(** ** The grading loop *)

Section GradeEach.
Import SelfFlow.
Variable o : Oracle.
Variable q : string.

(** The loop makes one grading call per passage, never raises, and appends
    to [filtered_docs] the passages graded ["yes"] and the passages whose
    call raised. *)
Lemma grade_each_run (docs acc : list Document) (log : list Call) :
  grade_each q docs acc o log =
    (Returns (acc ++ graded_yes_or_failed o (List.length log) q docs),
     log ++ grading_calls q docs).
Proof.
  revert acc log.
  induction docs as [|d rest IH]; intros acc log; simpl.
  - unfold ret. now rewrite !app_nil_r.
  - unfold bind at 1. unfold try_except, bind, invoke, ret.
    destruct (o (List.length log) (RetrievalGrader q (page_content d)))
      as [grade|e]; simpl.
    + destruct (String.eqb grade "yes"); rewrite IH, length_app; simpl;
        rewrite Nat.add_1_r, <- !app_assoc; reflexivity.
    + rewrite IH, length_app; simpl.
      rewrite Nat.add_1_r, <- !app_assoc; reflexivity.
Qed.

Lemma graded_yes_or_failed_sublist (n : nat) (docs : list Document) :
  graded_yes_or_failed o n q docs `sublist_of` docs.
Proof.
  revert n. induction docs as [|d rest IH]; intros n; simpl.
  - constructor.
  - destruct (o n (RetrievalGrader q (page_content d))) as [grade|e].
    + destruct (String.eqb grade "yes"); constructor; apply IH.
    + constructor; apply IH.
Qed.

(** A passage whose grading call raises is kept, between what is kept of
    the passages before it and of the passages after it. *)
Lemma graded_yes_or_failed_raise (n : nat) (pre post : list Document)
  (d : Document) (e : Exn) :
  o (n + List.length pre)%nat (RetrievalGrader q (page_content d)) = Raises e ->
  graded_yes_or_failed o n q (pre ++ d :: post) =
    graded_yes_or_failed o n q pre ++
    d :: graded_yes_or_failed o (S (n + List.length pre)) q post.
Proof.
  revert n. induction pre as [|p pre IH]; intros n Hr; simpl in *.
  - rewrite Nat.add_0_r in *. now rewrite Hr.
  - rewrite <- Nat.add_succ_comm in Hr.
    specialize (IH (S n) Hr). rewrite IH.
    rewrite <- Nat.add_succ_comm.
    destruct (o n (RetrievalGrader q (page_content p))) as [grade|e'];
      [destruct (String.eqb grade "yes")|]; reflexivity.
Qed.

End GradeEach.

(** ** The nodes of the self-reflective loop *)

Section Nodes.
Import SelfFlow.
Variable o : Oracle.

Lemma grade_documents_lenient (state : SelfState) (log : list Call) :
  2 <= get_retry_count state ->
  grade_documents state o log =
    (Returns {| retry_count := Some (get_retry_count state);
                question := question state;
                generation := generation state;
                documents := documents state |}, log).
Proof. intros H. unfold grade_documents. retry_cases. reflexivity. Qed.

Lemma grade_documents_strict (state : SelfState) (log : list Call) :
  get_retry_count state < 2 ->
  grade_documents state o log =
    (Returns {| retry_count := Some (get_retry_count state);
                question := question state;
                generation := generation state;
                documents :=
                  graded_yes_or_failed o (List.length log) (question state)
                    (documents state) |},
     log ++ grading_calls (question state) (documents state)).
Proof.
  intros H. unfold grade_documents. retry_cases.
  unfold bind. rewrite grade_each_run. reflexivity.
Qed.

(** The grading stage always returns. *)
Lemma grade_documents_returns (state : SelfState) (log : list Call) :
  exists docs log',
    grade_documents state o log =
      (Returns {| retry_count := Some (get_retry_count state);
                  question := question state;
                  generation := generation state;
                  documents := docs |}, log')
    /\ docs `sublist_of` documents state.
Proof.
  destruct (Z_lt_le_dec (get_retry_count state) 2) as [Hlt|Hge].
  - eexists _, _. split; [now apply grade_documents_strict|].
    apply graded_yes_or_failed_sublist.
  - eexists _, _. split; [now apply grade_documents_lenient|].
    reflexivity.
Qed.

(** What the rewrite stage does, whatever the rewriter answers. *)
Lemma transform_query_run (state : SelfState) (log : list Call) :
  let retry_count := get_retry_count state + 1 in
  let system :=
    if retry_count >=? 2 then SimplerBroaderQuestion else ImprovedQuestion in
  let c := QuestionRewriter system (question state) in
  transform_query state o log =
    (Returns {| retry_count := Some retry_count;
                question :=
                  match o (List.length log) c with
                  | Returns better_question => better_question
                  | Raises _ => question state
                  end;
                generation := generation state;
                documents := documents state |},
     log ++ [c]).
Proof.
  cbv zeta. unfold transform_query. run_monad.
  destruct (o (List.length log) _); reflexivity.
Qed.

(** The generation stage always returns, and never touches anything but
    the answer. *)
Lemma generate_returns (state : SelfState) (log : list Call) :
  exists answer log',
    generate state o log =
      (Returns {| retry_count := Some (get_retry_count state);
                  question := question state;
                  generation := answer;
                  documents := documents state |}, log').
Proof.
  unfold generate. destruct (documents state) as [|d rest]; run_monad.
  - eauto.
  - destruct (o (List.length log) (HubPull rag_prompt_name)) as [p|e]; simpl.
    + destruct (o _ (RagChain p _ _)); simpl; eauto.
    + eauto.
Qed.

Lemma retrieve_run (state : SelfState) (log : list Call) :
  let c := CompareEmbeddings (question state) in
  retrieve state o log =
    (match o (List.length log) c with
     | Returns docs =>
         Returns {| retry_count := Some (get_retry_count state);
                    question := question state;
                    generation := generation state;
                    documents := docs |}
     | Raises e => Raises e
     end, log ++ [c]).
Proof.
  cbv zeta. unfold retrieve. run_monad.
  destruct (o (List.length log) _); reflexivity.
Qed.

End Nodes.

(** ** The edges of the self-reflective loop *)

Section Edges.
Import SelfFlow.

(** C1.  At the edge after document grading: with no passage left and a retry
    count below 3 the edge answers ["transform_query"], which the graph maps
    to the rewrite node; with no passage left and a retry count of 3 or more
    it answers ["generate"]; with at least one passage it answers
    ["generate"], which the graph maps to the generation node. *)
Theorem decide_to_generate_transitions (state : SelfState) :
  (documents state = [] -> get_retry_count state < 3 ->
     decide_to_generate state = "transform_query"
     /\ after_grade_documents (decide_to_generate state)
        = Some node_transform_query)
  /\ (documents state = [] -> 3 <= get_retry_count state ->
     decide_to_generate state = "generate"
     /\ after_grade_documents (decide_to_generate state) = Some node_generate)
  /\ (documents state <> [] ->
     decide_to_generate state = "generate"
     /\ after_grade_documents (decide_to_generate state) = Some node_generate).
Proof.
  unfold decide_to_generate.
  split; [|split].
  - intros -> Hlt. retry_cases. split; reflexivity.
  - intros -> Hge. retry_cases. split; reflexivity.
  - intros Hne. destruct (documents state) as [|d rest]; [congruence|].
    split; reflexivity.
Qed.

Lemma decide_to_generate_transitions_witness :
  decide_to_generate (mkState (Some 2) "q" "" []) = "transform_query"
  /\ decide_to_generate (mkState (Some 3) "q" "" []) = "generate"
  /\ decide_to_generate (mkState None "q" "" [doc_a]) = "generate".
Proof.
  split; [|split].
  - destruct (decide_to_generate_transitions (mkState (Some 2) "q" "" []))
      as (H & _ & _).
    apply H; [reflexivity | cbv; congruence].
  - destruct (decide_to_generate_transitions (mkState (Some 3) "q" "" []))
      as (_ & H & _).
    apply H; [reflexivity | cbv; congruence].
  - destruct (decide_to_generate_transitions (mkState None "q" "" [doc_a]))
      as (_ & _ & H).
    apply H. discriminate.
Defined.

(** C2.  At the edge after generation: with a retry count of 2 or more, or
    with no passage, the edge answers ["useful"] and the log of external calls
    is untouched.  Otherwise the hallucination grader is asked first: on
    ["no"] the edge answers ["not supported"]; on ["yes"] the answer grader is
    asked, and the edge answers ["useful"] on ["yes"] and ["not useful"] on
    ["no"].  The graph maps ["not supported"] to the generation node,
    ["useful"] to the end and ["not useful"] to the rewrite node. *)
Theorem grade_generation_transitions (o : Oracle) (log : list Call)
  (state : SelfState) :
  let edge := grade_generation_v_documents_and_question state o log in
  let hallucination :=
    HallucinationGrader (documents state) (generation state) in
  let answer := AnswerGrader (question state) (generation state) in
  (2 <= get_retry_count state \/ documents state = [] ->
     edge = (Returns "useful", log))
  /\ (get_retry_count state < 2 -> documents state <> [] ->
      (o (List.length log) hallucination = Returns "no" ->
         edge = (Returns "not supported", log ++ [hallucination]))
      /\ (o (List.length log) hallucination = Returns "yes" ->
          (o (S (List.length log)) answer = Returns "yes" ->
             edge = (Returns "useful", log ++ [hallucination; answer]))
          /\ (o (S (List.length log)) answer = Returns "no" ->
             edge = (Returns "not useful", log ++ [hallucination; answer]))))
  /\ after_generate "not supported" = Some node_generate
  /\ after_generate "useful" = Some END
  /\ after_generate "not useful" = Some node_transform_query.
Proof.
  cbv zeta. unfold grade_generation_v_documents_and_question.
  split; [|split; [|repeat split]].
  - intros [Hge | Hnil].
    + retry_cases. reflexivity.
    + rewrite Hnil. simpl. rewrite orb_true_r. reflexivity.
  - intros Hlt Hne. retry_cases.
    destruct (documents state) as [|d rest] eqn:Hdocs; [congruence|].
    simpl. run_monad. split.
    + intros ->. reflexivity.
    + intros ->. simpl. rewrite length_app, Nat.add_1_r. simpl.
      split; intros ->; simpl; now rewrite <- app_assoc.
Qed.

Lemma grade_generation_transitions_witness :
  let grounded := mkState (Some 0) "q" "a" [doc_a] in
  let yes_then_no := fun n : nat => if Nat.eqb n 0 then "yes" else "no" in
  grade_generation_v_documents_and_question
    (mkState (Some 2) "q" "a" [doc_a]) all_raise [] = (Returns "useful", [])
  /\ grade_generation_v_documents_and_question
       grounded (answering (fun _ => "no") self_flow []) []
     = (Returns "not supported", [HallucinationGrader [doc_a] "a"])
  /\ grade_generation_v_documents_and_question
       grounded (answering (fun _ => "yes") self_flow []) []
     = (Returns "useful", [HallucinationGrader [doc_a] "a"; AnswerGrader "q" "a"])
  /\ grade_generation_v_documents_and_question
       grounded (answering yes_then_no self_flow []) []
     = (Returns "not useful",
        [HallucinationGrader [doc_a] "a"; AnswerGrader "q" "a"]).
Proof.
  cbv zeta.
  split; [|split; [|split]].
  - destruct (grade_generation_transitions all_raise []
                (mkState (Some 2) "q" "a" [doc_a])) as (H & _).
    apply H. left. cbv; congruence.
  - destruct (grade_generation_transitions
                (answering (fun _ => "no") self_flow []) []
                (mkState (Some 0) "q" "a" [doc_a])) as (_ & H & _).
    destruct H as (H & _); [cbv; congruence | discriminate |].
    apply H. reflexivity.
  - destruct (grade_generation_transitions
                (answering (fun _ => "yes") self_flow []) []
                (mkState (Some 0) "q" "a" [doc_a])) as (_ & H & _).
    destruct H as (_ & H); [cbv; congruence | discriminate |].
    destruct H as (H & _); [reflexivity |].
    apply H. reflexivity.
  - destruct (grade_generation_transitions
                (answering (fun n : nat => if Nat.eqb n 0 then "yes" else "no")
                   self_flow []) []
                (mkState (Some 0) "q" "a" [doc_a])) as (_ & H & _).
    destruct H as (_ & H); [cbv; congruence | discriminate |].
    destruct H as (_ & H); [reflexivity |].
    apply H. reflexivity.
Defined.

End Edges.

(** ** Document grading *)

Section Grading.
Import SelfFlow.

(** When no grading call raises, the passages kept are exactly those graded
    ["yes"]. *)
Lemma graded_yes_or_failed_no_raise (o : Oracle) (q : string)
  (docs : list Document) (n : nat) :
  (forall i d, docs !! i = Some d ->
     exists grade,
       o (n + i)%nat (RetrievalGrader q (page_content d)) = Returns grade) ->
  graded_yes_or_failed o n q docs = graded_yes o n q docs.
Proof.
  revert n. induction docs as [|d rest IH]; intros n Hret; simpl; [reflexivity|].
  assert (Hrest : graded_yes_or_failed o (S n) q rest = graded_yes o (S n) q rest).
  { apply IH. intros i d' Hi.
    destruct (Hret (S i) d' Hi) as [g Hg].
    exists g. now rewrite <- Nat.add_succ_comm in Hg. }
  destruct (Hret O d eq_refl) as [g Hg]. rewrite Nat.add_0_r in Hg.
  rewrite Hg, Hrest. reflexivity.
Qed.

(** C3, as stated, fails: with the grader down, the one retrieved passage is
    returned at retry count 0 although the grader labelled nothing ["yes"]. *)
Lemma grade_documents_not_only_yes :
  get_retry_count (mkState (Some 0) "q" "" [doc_a]) < 2
  /\ grade_documents (mkState (Some 0) "q" "" [doc_a]) all_raise [] =
       (Returns (mkState (Some 0) "q" "" [doc_a]),
        [RetrievalGrader "q" "alpha"])
  /\ graded_yes all_raise 0 "q" [doc_a] = []
  /\ [doc_a] <> graded_yes all_raise 0 "q" [doc_a].
Proof.
  repeat split; try reflexivity. discriminate.
Qed.

(** C3, amended.  With a retry count of 2 or more the grading stage returns
    its passage list unchanged and makes no external call.  With a retry
    count below 2 it asks the relevance grader once per passage, in order,
    and returns exactly the passages graded ["yes"] or whose grading call
    raised. *)
Theorem grade_documents_filtering (o : Oracle) (log : list Call)
  (state : SelfState) :
  (2 <= get_retry_count state ->
     exists state',
       grade_documents state o log = (Returns state', log)
       /\ documents state' = documents state)
  /\ (get_retry_count state < 2 ->
     exists state',
       grade_documents state o log =
         (Returns state',
          log ++ grading_calls (question state) (documents state))
       /\ documents state' =
            graded_yes_or_failed o (List.length log) (question state)
              (documents state)).
Proof.
  split; intros H.
  - eexists. split; [now apply grade_documents_lenient | reflexivity].
  - eexists. split; [now apply grade_documents_strict | reflexivity].
Qed.

Lemma grade_documents_filtering_witness :
  let mixed := fun n : nat => if Nat.eqb n 1 then "no" else "yes" in
  let o := failing_at 2 (answering mixed self_flow []) in
  (exists state',
     grade_documents (mkState (Some 2) "q" "" [doc_a; doc_b; doc_c]) o [] =
       (Returns state', [])
     /\ documents state' = [doc_a; doc_b; doc_c])
  /\ (exists state',
     grade_documents (mkState (Some 1) "q" "" [doc_a; doc_b; doc_c]) o [] =
       (Returns state',
        [RetrievalGrader "q" "alpha"; RetrievalGrader "q" "beta";
         RetrievalGrader "q" "gamma"])
     /\ documents state' = [doc_a; doc_c]).
Proof.
  cbv zeta. split.
  - destruct (grade_documents_filtering
                (failing_at 2
                   (answering (fun n : nat => if Nat.eqb n 1 then "no" else "yes")
                      self_flow []))
                [] (mkState (Some 2) "q" "" [doc_a; doc_b; doc_c])) as (H & _).
    apply H. cbv; congruence.
  - destruct (grade_documents_filtering
                (failing_at 2
                   (answering (fun n : nat => if Nat.eqb n 1 then "no" else "yes")
                      self_flow []))
                [] (mkState (Some 1) "q" "" [doc_a; doc_b; doc_c])) as (_ & H).
    apply H. cbv; congruence.
Defined.

(** C10.  Whatever the retry count and whatever the grader does, the grading
    stage returns, the passages it returns are a subsequence of the passages
    it was given (same relative order, nothing added, nothing repeated), and
    the question and the retry count are those of the input. *)
Theorem grade_documents_sublist (o : Oracle) (log : list Call)
  (state : SelfState) :
  exists state' log',
    grade_documents state o log = (Returns state', log')
    /\ documents state' `sublist_of` documents state
    /\ question state' = question state
    /\ get_retry_count state' = get_retry_count state.
Proof.
  destruct (grade_documents_returns o state log) as (docs & log' & Hrun & Hsub).
  eexists _, log'. split; [exact Hrun|].
  split; [exact Hsub|]. split; reflexivity.
Qed.

End Grading.

(** ** Query rewriting and the retry counter *)

Section Retry.
Import SelfFlow.

(** C4.  The rewrite stage always returns; the retry count of the state it
    returns is the incoming one plus 1; it asks the rewriter once, with the
    simpler-and-broader prompt exactly when that new retry count is 2 or
    more, that is when the incoming one is 1 or more; when the rewriter
    returns, its output is the new question; and the graph goes from the
    rewrite node back to retrieval. *)
Theorem transform_query_increments (o : Oracle) (log : list Call)
  (state : SelfState) :
  exists state' system,
    transform_query state o log =
      (Returns state', log ++ [QuestionRewriter system (question state)])
    /\ get_retry_count state' = get_retry_count state + 1
    /\ (system = SimplerBroaderQuestion <-> 2 <= get_retry_count state')
    /\ (system = SimplerBroaderQuestion <-> 1 <= get_retry_count state)
    /\ (system = ImprovedQuestion <-> get_retry_count state' < 2)
    /\ (forall better_question,
          o (List.length log) (QuestionRewriter system (question state))
            = Returns better_question ->
          question state' = better_question)
    /\ documents state' = documents state
    /\ after_transform_query = node_retrieve.
Proof.
  eexists _, _. split; [apply transform_query_run|].
  split; [reflexivity|].
  cbn [get_retry_count retry_count default from_option id question documents].
  fold (get_retry_count state).
  assert (Hquestion : forall (system : RewritePrompt) (q' : string),
            o (List.length log) (QuestionRewriter system (question state))
              = Returns q' ->
            match o (List.length log)
                    (QuestionRewriter system (question state)) with
            | Returns better_question => better_question
            | Raises _ => question state
            end = q').
  { intros system q' Hq. now rewrite Hq. }
  destruct (Z_lt_le_dec (get_retry_count state + 1) 2) as [Hlt|Hge].
  - rewrite (geb_false _ _ Hlt).
    split; [split; [discriminate | lia]|].
    split; [split; [discriminate | lia]|].
    split; [split; [intros _; exact Hlt | reflexivity]|].
    split; [apply Hquestion|]. split; reflexivity.
  - rewrite (geb_true _ _ Hge).
    split; [split; [intros _; exact Hge | reflexivity]|].
    split; [split; [intros _; lia | reflexivity]|].
    split; [split; [discriminate | lia]|].
    split; [apply Hquestion|]. split; reflexivity.
Qed.

Lemma transform_query_increments_witness :
  transform_query (mkState (Some 1) "q" "" [])
    (answering (fun _ => "no") self_flow []) [] =
    (Returns (mkState (Some 2) "rewritten q" "" []),
     [QuestionRewriter SimplerBroaderQuestion "q"]).
Proof.
  destruct (transform_query_increments
              (answering (fun _ => "no") self_flow []) []
              (mkState (Some 1) "q" "" []))
    as (state' & system & Hrun & Hcount & Hbroad & _ & _ & Hquestion & Hdocs & _).
  rewrite Hrun.
  assert (Hsys : system = SimplerBroaderQuestion).
  { apply Hbroad. rewrite Hcount. cbv; congruence. }
  subst system.
  specialize (Hquestion "rewritten q" eq_refl).
  destruct state' as [rc q g d]; simpl in *. subst q d.
  unfold get_retry_count in Hcount; simpl in Hcount.
  revert Hrun. unfold transform_query. run_monad.
  intros Hrun. inversion Hrun. reflexivity.
Defined.

(** Neither edge changes the state, so a superstep changes the retry count
    only through its node. *)
Lemma step_retry_count (o : Oracle) (n n' : Node) (state state' : SelfState)
  (log log' : list Call) :
  step n state o log = (Returns (n', state'), log') ->
  get_retry_count state' =
    get_retry_count state +
    match n with node_transform_query => 1 | _ => 0 end.
Proof.
  destruct n; unfold step, bind.
  - rewrite retrieve_run.
    destruct (o (List.length log) _); unfold ret; intros H; inversion H.
    unfold get_retry_count at 1; simpl. lia.
  - destruct (grade_documents_returns o state log) as (docs & l1 & -> & _).
    destruct (after_grade_documents _); unfold follow, ret, raise;
      intros H; inversion H.
    unfold get_retry_count at 1; simpl. lia.
  - destruct (generate_returns o state log) as (answer & l1 & ->).
    destruct (grade_generation_v_documents_and_question _ o l1) as [[label|e] l2];
      [|intros H; inversion H].
    destruct (after_generate label); unfold follow, ret, raise;
      intros H; inversion H.
    unfold get_retry_count at 1; simpl. lia.
  - rewrite transform_query_run. unfold ret. intros H; inversion H.
    unfold get_retry_count at 1; simpl. lia.
  - unfold ret. intros H; inversion H. lia.
Qed.

Lemma steps_retry_count (o : Oracle) (k : nat) :
  forall (n n' : Node) (state state' : SelfState) (log log' : list Call),
    steps k n state o log = (Returns (n', state'), log') ->
    get_retry_count state <= get_retry_count state'.
Proof.
  induction k as [|k IH]; intros n n' state state' log log'; simpl.
  - unfold ret. intros H; inversion H. lia.
  - unfold bind. destruct (step n state o log) as [[[n1 s1]|e] l1] eqn:Hstep;
      [|intros H; inversion H].
    simpl. intros Hrest.
    apply step_retry_count in Hstep. apply IH in Hrest.
    destruct n; lia.
Qed.

(** C5.  Retrieval (when the vector index answers), document grading and
    generation return a state with the retry count of their input; the
    rewrite stage returns one with the retry count plus 1; a superstep of the
    graph changes the retry count only when its node is the rewrite node; so
    along any execution the retry count never decreases. *)
Theorem retry_count_monotone (o : Oracle) :
  (forall state log state' log',
     retrieve state o log = (Returns state', log') ->
     get_retry_count state' = get_retry_count state)
  /\ (forall state log docs,
     o (List.length log) (CompareEmbeddings (question state)) = Returns docs ->
     exists state' log',
       retrieve state o log = (Returns state', log')
       /\ get_retry_count state' = get_retry_count state)
  /\ (forall state log,
     exists state' log',
       grade_documents state o log = (Returns state', log')
       /\ get_retry_count state' = get_retry_count state)
  /\ (forall state log,
     exists state' log',
       generate state o log = (Returns state', log')
       /\ get_retry_count state' = get_retry_count state)
  /\ (forall state log,
     exists state' log',
       transform_query state o log = (Returns state', log')
       /\ get_retry_count state' = get_retry_count state + 1)
  /\ (forall n state log n' state' log',
     step n state o log = (Returns (n', state'), log') ->
     (n = node_transform_query
      /\ get_retry_count state' = get_retry_count state + 1)
     \/ (n <> node_transform_query
      /\ get_retry_count state' = get_retry_count state))
  /\ (forall k n state log n' state' log',
     steps k n state o log = (Returns (n', state'), log') ->
     get_retry_count state <= get_retry_count state').
Proof.
  repeat apply conj.
  - intros state log state' log'. rewrite retrieve_run.
    destruct (o (List.length log) _); intros H; inversion H. reflexivity.
  - intros state log docs Hdocs. eexists _, _.
    rewrite retrieve_run, Hdocs. split; reflexivity.
  - intros state log.
    destruct (grade_documents_returns o state log) as (docs & log' & -> & _).
    eexists _, _. split; reflexivity.
  - intros state log.
    destruct (generate_returns o state log) as (answer & log' & ->).
    eexists _, _. split; reflexivity.
  - intros state log. eexists _, _.
    rewrite transform_query_run. split; reflexivity.
  - intros n state log n' state' log' Hstep.
    apply step_retry_count in Hstep.
    destruct n; [right | right | right | left | right];
      split; try discriminate; try reflexivity; lia.
  - intros k n state log n' state' log'. apply steps_retry_count.
Qed.

Lemma retry_count_monotone_witness :
  let o := answering (fun _ => "no") self_flow [doc_a] in
  steps 3 entry_point (initial_state "q") o [] =
    (Returns (node_retrieve, mkState (Some 1) "rewritten q" "" []),
     [CompareEmbeddings "q"; RetrievalGrader "q" "alpha";
      QuestionRewriter ImprovedQuestion "q"])
  /\ get_retry_count (initial_state "q")
     <= get_retry_count (mkState (Some 1) "rewritten q" "" []).
Proof.
  cbv zeta. split; [reflexivity|].
  destruct (retry_count_monotone (answering (fun _ => "no") self_flow [doc_a]))
    as (_ & _ & _ & _ & _ & _ & H).
  apply (H 3%nat entry_point (initial_state "q") []
           node_retrieve _
           [CompareEmbeddings "q"; RetrievalGrader "q" "alpha";
            QuestionRewriter ImprovedQuestion "q"]).
  reflexivity.
Defined.

End Retry.

(** ** Generation *)

Section Generation.
Import SelfFlow.

Lemma generate_no_documents (o : Oracle) (log : list Call) (state : SelfState) :
  documents state = [] ->
  generate state o log =
    (Returns {| retry_count := Some (get_retry_count state);
                question := question state;
                generation := no_documents_answer (question state);
                documents := [] |}, log).
Proof. intros Hnil. unfold generate. rewrite Hnil. reflexivity. Qed.

(** What generation does with at least one passage: pull the prompt, then
    run the chain; a fault of either call is replaced by the error answer. *)
Lemma generate_with_documents (o : Oracle) (log : list Call)
  (state : SelfState) :
  documents state <> [] ->
  let pull := HubPull rag_prompt_name in
  let chain := fun prompt =>
    RagChain prompt (PassageList (documents state)) (question state) in
  let finish := fun answer =>
    Returns {| retry_count := Some (get_retry_count state);
               question := question state;
               generation := answer;
               documents := documents state |} in
  generate state o log =
    match o (List.length log) pull with
    | Returns prompt =>
        match o (S (List.length log)) (chain prompt) with
        | Returns answer => (finish answer, log ++ [pull; chain prompt])
        | Raises _ =>
            (finish (generation_error_answer (question state)),
             log ++ [pull; chain prompt])
        end
    | Raises _ =>
        (finish (generation_error_answer (question state)), log ++ [pull])
    end.
Proof.
  intros Hne. cbv zeta. unfold generate.
  destruct (documents state) as [|d rest]; [congruence|].
  run_monad.
  destruct (o (List.length log) (HubPull rag_prompt_name)) as [prompt|e]; simpl;
    [|reflexivity].
  rewrite length_app, Nat.add_1_r. simpl.
  destruct (o (S (List.length log)) _); simpl; now rewrite <- app_assoc.
Qed.

(** C9, as stated, fails: with no passage, the answer for question ["a"] and
    the answer for question ["b"] differ, so the answer is not the same
    regardless of input. *)
Lemma generate_fallback_depends_on_question :
  generate (mkState (Some 0) "a" "" []) all_raise [] =
    (Returns (mkState (Some 0) "a" (no_documents_answer "a") []), [])
  /\ generate (mkState (Some 0) "b" "" []) all_raise [] =
    (Returns (mkState (Some 0) "b" (no_documents_answer "b") []), [])
  /\ no_documents_answer "a" <> no_documents_answer "b".
Proof.
  split; [reflexivity|]. split; [reflexivity|]. discriminate.
Qed.

(** C9, amended.  With no passage the generation stage makes no external
    call and returns the "no information available" answer, a fixed text into
    which the question is inserted: it depends on the question and on nothing
    else.  With at least one passage it pulls the prompt and runs the chain
    on the passages and the question, and the answer the chain returns is the
    answer of the state. *)
Theorem generate_by_passages (o : Oracle) (log : list Call)
  (state : SelfState) :
  (documents state = [] ->
     exists state',
       generate state o log = (Returns state', log)
       /\ generation state' = no_documents_answer (question state))
  /\ (documents state <> [] ->
     forall prompt answer,
       o (List.length log) (HubPull rag_prompt_name) = Returns prompt ->
       o (S (List.length log))
         (RagChain prompt (PassageList (documents state)) (question state))
         = Returns answer ->
       exists state',
         generate state o log =
           (Returns state',
            log ++ [HubPull rag_prompt_name;
                    RagChain prompt (PassageList (documents state))
                      (question state)])
         /\ generation state' = answer).
Proof.
  split.
  - intros Hnil. eexists. split; [now apply generate_no_documents|reflexivity].
  - intros Hne prompt answer Hpull Hchain.
    rewrite (generate_with_documents o log state Hne).
    cbv zeta. rewrite Hpull, Hchain.
    eexists. split; reflexivity.
Qed.

Lemma generate_by_passages_witness :
  let o := answering (fun _ => "yes") self_flow [] in
  (exists state',
     generate (mkState (Some 0) "q" "" []) o [] = (Returns state', [])
     /\ generation state' = no_documents_answer "q")
  /\ (exists state',
     generate (mkState (Some 0) "q" "" [doc_a]) o [] =
       (Returns state',
        [HubPull "rlm/rag-prompt"; RagChain "prompt" (PassageList [doc_a]) "q"])
     /\ generation state' = "answer to q").
Proof.
  cbv zeta. split.
  - destruct (generate_by_passages (answering (fun _ => "yes") self_flow [])
                [] (mkState (Some 0) "q" "" [])) as (H & _).
    apply H. reflexivity.
  - destruct (generate_by_passages (answering (fun _ => "yes") self_flow [])
                [] (mkState (Some 0) "q" "" [doc_a])) as (_ & H).
    apply (H ltac:(discriminate) "prompt" "answer to q" eq_refl eq_refl).
Defined.

End Generation.

(** ** Faults of the external services *)

Section Faults.
Import SelfFlow.

(** The edge after generation never raises. *)
Lemma grade_generation_returns (o : Oracle) (log : list Call)
  (state : SelfState) :
  exists label log',
    grade_generation_v_documents_and_question state o log
      = (Returns label, log').
Proof.
  unfold grade_generation_v_documents_and_question.
  destruct (_ || _); run_monad; [eauto|].
  destruct (o (List.length log) (HallucinationGrader _ _)) as [grade|e]; simpl;
    [|eauto].
  destruct (String.eqb grade "yes"); simpl; [|eauto].
  destruct (o _ (AnswerGrader _ _)) as [grade'|e]; simpl; [|eauto].
  destruct (String.eqb grade' "yes"); eauto.
Qed.

(** C7.  In the self-reflective loop no grading, generation or rewriting
    fault leaves its stage: document grading, generation, the edge after
    generation and query rewriting always return.  A passage whose grading
    call raises is kept, at its place, and every passage after it is still
    graded; a fault of the prompt pull or of the chain makes generation
    return its error answer; a fault of the hallucination grader or of the
    answer grader makes the edge answer ["useful"]; a fault of the rewriter
    leaves the question as it was. *)
Theorem faults_are_absorbed (o : Oracle) (log : list Call)
  (state : SelfState) :
  (* every stage returns *)
  ((exists state' log', grade_documents state o log = (Returns state', log'))
   /\ (exists state' log', generate state o log = (Returns state', log'))
   /\ (exists label log',
         grade_generation_v_documents_and_question state o log
           = (Returns label, log'))
   /\ (exists state' log', transform_query state o log = (Returns state', log')))
  (* relevance grading *)
  /\ (forall pre d post e,
        get_retry_count state < 2 ->
        documents state = pre ++ d :: post ->
        o (List.length log + List.length pre)%nat
          (RetrievalGrader (question state) (page_content d)) = Raises e ->
        exists state' kept_before kept_after,
          grade_documents state o log =
            (Returns state',
             log ++ grading_calls (question state) pre
                 ++ RetrievalGrader (question state) (page_content d)
                 :: grading_calls (question state) post)
          /\ documents state' = kept_before ++ d :: kept_after
          /\ kept_before `sublist_of` pre
          /\ kept_after `sublist_of` post)
  (* generation *)
  /\ (documents state <> [] ->
      (forall e,
         o (List.length log) (HubPull rag_prompt_name) = Raises e ->
         exists state' log',
           generate state o log = (Returns state', log')
           /\ generation state' = generation_error_answer (question state))
      /\ (forall prompt e,
         o (List.length log) (HubPull rag_prompt_name) = Returns prompt ->
         o (S (List.length log))
           (RagChain prompt (PassageList (documents state)) (question state))
           = Raises e ->
         exists state' log',
           generate state o log = (Returns state', log')
           /\ generation state' = generation_error_answer (question state)))
  (* hallucination and answer grading *)
  /\ (get_retry_count state < 2 -> documents state <> [] ->
      let hallucination :=
        HallucinationGrader (documents state) (generation state) in
      let answer := AnswerGrader (question state) (generation state) in
      (forall e,
         o (List.length log) hallucination = Raises e ->
         grade_generation_v_documents_and_question state o log
           = (Returns "useful", log ++ [hallucination]))
      /\ (forall e,
         o (List.length log) hallucination = Returns "yes" ->
         o (S (List.length log)) answer = Raises e ->
         grade_generation_v_documents_and_question state o log
           = (Returns "useful", log ++ [hallucination; answer])))
  (* query rewriting *)
  /\ (forall system e,
        o (List.length log) (QuestionRewriter system (question state))
          = Raises e ->
        (system = SimplerBroaderQuestion <-> 2 <= get_retry_count state + 1) ->
        exists state',
          transform_query state o log =
            (Returns state',
             log ++ [QuestionRewriter system (question state)])
          /\ question state' = question state).
Proof.
  split; [|split; [|split; [|split]]].
  - split; [|split; [|split]].
    + destruct (grade_documents_returns o state log) as (docs & log' & H & _).
      eauto.
    + destruct (generate_returns o state log) as (answer & log' & H). eauto.
    + apply grade_generation_returns.
    + rewrite transform_query_run. eauto.
  - intros pre d post e Hlt Hdocs Hraise.
    rewrite (grade_documents_strict o state log Hlt), Hdocs.
    rewrite (graded_yes_or_failed_raise o _ _ pre post d e Hraise).
    eexists _, _, _. split.
    { unfold grading_calls. rewrite map_app. reflexivity. }
    split; [reflexivity|].
    split; apply graded_yes_or_failed_sublist.
  - intros Hne. split.
    + intros e Hpull. rewrite (generate_with_documents o log state Hne).
      cbv zeta. rewrite Hpull. eexists _, _. split; reflexivity.
    + intros prompt e Hpull Hchain.
      rewrite (generate_with_documents o log state Hne).
      cbv zeta. rewrite Hpull, Hchain. eexists _, _. split; reflexivity.
  - intros Hlt Hne. cbv zeta.
    unfold grade_generation_v_documents_and_question. retry_cases.
    destruct (documents state) as [|d0 rest]; [congruence|].
    simpl. run_monad. split.
    + intros e ->. reflexivity.
    + intros e ->. simpl. rewrite length_app, Nat.add_1_r. simpl.
      intros ->. simpl. now rewrite <- app_assoc.
  - intros system e Hraise Hsys.
    rewrite transform_query_run. cbv zeta.
    assert (Heq : (if get_retry_count state + 1 >=? 2
                   then SimplerBroaderQuestion else ImprovedQuestion) = system).
    { destruct (Z_lt_le_dec (get_retry_count state + 1) 2) as [H|H].
      - rewrite (geb_false _ _ H). destruct system; [reflexivity|].
        exfalso. assert (2 <= get_retry_count state + 1) by now apply Hsys.
        lia.
      - rewrite (geb_true _ _ H). symmetry. now apply Hsys. }
    rewrite Heq, Hraise. eexists. split; reflexivity.
Qed.

Lemma faults_are_absorbed_witness :
  let docs := [doc_a; doc_b; doc_c] in
  let no := answering (fun _ => "no") self_flow [] in
  let yes := answering (fun _ => "yes") self_flow [] in
  (exists state' kept_before kept_after,
     grade_documents (mkState (Some 0) "q" "" docs) (failing_at 1 no) [] =
       (Returns state',
        [RetrievalGrader "q" "alpha"; RetrievalGrader "q" "beta";
         RetrievalGrader "q" "gamma"])
     /\ documents state' = kept_before ++ doc_b :: kept_after
     /\ kept_before `sublist_of` [doc_a]
     /\ kept_after `sublist_of` [doc_c])
  /\ (exists state' log',
     generate (mkState (Some 0) "q" "" [doc_a]) (failing_at 1 yes) [] =
       (Returns state', log')
     /\ generation state' = generation_error_answer "q")
  /\ grade_generation_v_documents_and_question
       (mkState (Some 0) "q" "a" [doc_a]) (failing_at 1 yes) [] =
     (Returns "useful", [HallucinationGrader [doc_a] "a"; AnswerGrader "q" "a"])
  /\ (exists state',
     transform_query (mkState (Some 0) "q" "" []) all_raise [] =
       (Returns state', [QuestionRewriter ImprovedQuestion "q"])
     /\ question state' = "q").
Proof.
  cbv zeta. split; [|split; [|split]].
  - destruct (faults_are_absorbed
                (failing_at 1 (answering (fun _ => "no") self_flow [])) []
                (mkState (Some 0) "q" "" [doc_a; doc_b; doc_c]))
      as (_ & H & _).
    apply (H [doc_a] doc_b [doc_c] "timeout");
      [cbv; congruence | reflexivity | reflexivity].
  - destruct (faults_are_absorbed
                (failing_at 1 (answering (fun _ => "yes") self_flow [])) []
                (mkState (Some 0) "q" "" [doc_a]))
      as (_ & _ & H & _).
    destruct H as (_ & H); [discriminate|].
    apply (H "prompt" "timeout"); reflexivity.
  - destruct (faults_are_absorbed
                (failing_at 1 (answering (fun _ => "yes") self_flow [])) []
                (mkState (Some 0) "q" "a" [doc_a]))
      as (_ & _ & _ & H & _).
    destruct H as (_ & H); [cbv; congruence | discriminate |].
    apply (H "timeout"); reflexivity.
  - destruct (faults_are_absorbed all_raise []
                (mkState (Some 0) "q" "" []))
      as (_ & _ & _ & _ & H).
    apply (H ImprovedQuestion "service unavailable"); [reflexivity|].
    split; [discriminate | cbv; congruence].
Defined.

End Faults.

(** ** The router and the web-search path *)

Section Adaptive.
Import AdaptiveFlow.

(** The router compares the datasource with ["web-search"], a string that no
    [RouteQuery] carries. *)
Lemma datasource_never_hyphenated (d : Datasource) :
  String.eqb (datasource_value d) "web-search" = false.
Proof. destruct d; reflexivity. Qed.

(** C6.  The router does not reach the web-search path: whatever datasource
    the classifier returns, ["web_search"] included, [route_query] answers
    ["call_self_rag"], and the run never starts in the rewrite node of the
    web path, although the path map of the graph sends ["web_search"]
    there. *)
Theorem route_query_never_web_search (o : Oracle) (log : list Call)
  (state : AdaptiveState) :
  route_query state o log =
    (match o (List.length log) (QuestionRouter (question state)) with
     | Returns _ => Returns "call_self_rag"
     | Raises e => Raises e
     end, log ++ [QuestionRouter (question state)])
  /\ outcome_of (first_node state o log) <> Returns (Some node_transform_query)
  /\ route_query (initial_state "q")
       (answering (fun _ => "yes") web_search []) [] =
     (Returns "call_self_rag", [QuestionRouter "q"])
  /\ after_start "web_search" = Some node_transform_query
  /\ after_start "call_self_rag" = Some node_call_self_rag
  /\ next_node node_transform_query = node_web_search
  /\ next_node node_web_search = node_generate_answer
  /\ next_node node_generate_answer = END.
Proof.
  assert (Hrun : route_query state o log =
    (match o (List.length log) (QuestionRouter (question state)) with
     | Returns _ => Returns "call_self_rag"
     | Raises e => Raises e
     end, log ++ [QuestionRouter (question state)])).
  { unfold route_query. run_monad.
    destruct (o (List.length log) _) as [next_step|e]; simpl; [|reflexivity].
    now rewrite datasource_never_hyphenated. }
  split; [exact Hrun|]. split; [|repeat split].
  unfold first_node, bind. rewrite Hrun.
  destruct (o (List.length log) _); simpl; discriminate.
Qed.

(** C8.  The rewrite stage of the web path does not absorb a fault: with the
    rewriter down, [transform_query] raises.  The two stages after it do
    absorb: [search_web] always returns, with an empty pseudo-passage when
    the search tool raises, and [generate_answer] always returns on a state
    that carries ["documents"], with its fallback answer when the prompt pull
    or the chain raises. *)
Theorem web_rewrite_fault_propagates :
  transform_query (initial_state "q") all_raise [] =
    (Raises "service unavailable", [WebQuestionRewriter "q"])
  /\ (forall o log state,
        transform_query state o log =
          (match o (List.length log) (WebQuestionRewriter (question state)) with
           | Returns better_question =>
               Returns {| question := better_question;
                          generation := generation state;
                          documents :=
                            Some (default (PassageList []) (documents state)) |}
           | Raises e => Raises e
           end, log ++ [WebQuestionRewriter (question state)]))
  /\ (forall o log state,
        search_web state o log =
          (Returns
             {| question := question state;
                generation := generation state;
                documents :=
                  Some (SinglePassage
                          (match o (List.length log)
                                   (WebSearchTool (question state)) with
                           | Returns docs =>
                               mkDocument
                                 (String.concat newline (map content docs))
                           | Raises _ => mkDocument ""
                           end)) |},
           log ++ [WebSearchTool (question state)]))
  /\ (forall o log q g docs,
        exists answer log',
          generate_answer (mkState q g (Some docs)) o log =
            (Returns (mkState q answer (Some docs)), log')
          /\ (answer = generation_failed_answer q
              \/ exists prompt,
                   o (S (List.length log)) (RagChain prompt docs q)
                     = Returns answer)).
Proof.
  split; [reflexivity|]. split; [|split].
  - intros o log state. unfold transform_query. run_monad.
    destruct (o (List.length log) _); reflexivity.
  - intros o log state. unfold search_web. run_monad.
    destruct (o (List.length log) _); reflexivity.
  - intros o log q g docs. unfold generate_answer. run_monad.
    destruct (o (List.length log) (HubPull _)) as [prompt|e]; simpl.
    + rewrite length_app, Nat.add_1_r. simpl.
      destruct (o (S (List.length log)) (RagChain prompt docs q))
        as [answer|e] eqn:Hchain; simpl.
      * eexists _, _. split; [reflexivity|]. right. eauto.
      * eexists _, _. split; [reflexivity|]. now left.
    + eexists _, _. split; [reflexivity|]. now left.
Qed.

End Adaptive.

(** * Further properties of the flows *)

(** ** What a computation adds to the log *)

Section Logs.
Variable P : Call -> bool.

Lemma extends_ret {A} (a : A) : extends_by P (ret a).
Proof. intros o log. exists []. simpl. now rewrite app_nil_r. Qed.

Lemma extends_raise {A} (e : Exn) : extends_by P (@raise A e).
Proof. intros o log. exists []. simpl. now rewrite app_nil_r. Qed.

Lemma extends_invoke (c : Call) : P c = true -> extends_by P (invoke c).
Proof. intros Hc o log. exists [c]. simpl. now rewrite Hc. Qed.

Lemma extends_bind {A B} (m : M A) (k : A -> M B) :
  extends_by P m -> (forall a, extends_by P (k a)) -> extends_by P (bind m k).
Proof.
  intros Hm Hk o log. unfold bind.
  destruct (Hm o log) as (ext & Hlog & Hext).
  destruct (m o log) as [[a|e] log1]; simpl in Hlog; subst log1.
  - destruct (Hk a o (log ++ ext)) as (ext' & Hlog' & Hext').
    exists (ext ++ ext'). rewrite Hlog', <- app_assoc, forallb_app, Hext, Hext'.
    now split.
  - exists ext. now split.
Qed.

Lemma extends_try {A} (m : M A) (h : Exn -> M A) :
  extends_by P m -> (forall e, extends_by P (h e)) ->
  extends_by P (try_except m h).
Proof.
  intros Hm Hh o log. unfold try_except.
  destruct (Hm o log) as (ext & Hlog & Hext).
  destruct (m o log) as [[a|e] log1]; simpl in Hlog; subst log1.
  - exists ext. now split.
  - destruct (Hh e o (log ++ ext)) as (ext' & Hlog' & Hext').
    exists (ext ++ ext'). rewrite Hlog', <- app_assoc, forallb_app, Hext, Hext'.
    now split.
Qed.

End Logs.

Lemma extends_weaken (P Q : Call -> bool) {A} (m : M A) :
  (forall c, P c = true -> Q c = true) -> extends_by P m -> extends_by Q m.
Proof.
  intros HPQ Hm o log. destruct (Hm o log) as (ext & Hlog & Hext).
  exists ext. split; [exact Hlog|].
  rewrite forallb_forall in *. auto.
Qed.

Lemma quiet_is_loop_call (c : Call) : is_quiet c = true -> is_loop_call c = true.
Proof. unfold is_loop_call. now intros ->. Qed.

Lemma quiet_not_rewrite (ext : list Call) :
  forallb is_quiet ext = true -> List.filter is_rewrite ext = [].
Proof.
  induction ext as [|c ext IH]; simpl; [reflexivity|].
  intros H. apply andb_true_iff in H as [Hc Hext].
  destruct c; simpl in *; try discriminate; auto.
Qed.

Lemma rewrites_quiet (log ext : list Call) :
  forallb is_quiet ext = true -> rewrites (log ++ ext) = rewrites log.
Proof.
  intros H. unfold rewrites.
  now rewrite List.filter_app, (quiet_not_rewrite ext H), app_nil_r.
Qed.

Lemma loop_call_not_web (ext : list Call) :
  forallb is_loop_call ext = true -> forallb (fun c => negb (is_web c)) ext = true.
Proof.
  rewrite !forallb_forall. intros H c Hc. specialize (H c Hc).
  destruct c; simpl in *; try reflexivity; discriminate.
Qed.

Ltac quiet_step :=
  repeat first
    [ apply extends_ret
    | apply extends_raise
    | apply extends_invoke; reflexivity
    | apply extends_bind; [|intros ?]
    | apply extends_try; [|intros ?] ].

Section LoopLogs.
Import SelfFlow.

Lemma retrieve_quiet (state : SelfState) : extends_by is_quiet (retrieve state).
Proof. unfold retrieve. quiet_step. Qed.

Lemma grade_each_quiet (q : string) (docs acc : list Document) :
  extends_by is_quiet (grade_each q docs acc).
Proof.
  revert acc. induction docs as [|d rest IH]; intros acc; simpl.
  - quiet_step.
  - apply extends_bind; [|intros ?; apply IH].
    apply extends_try; [|intros ?; quiet_step].
    apply extends_bind; [quiet_step|].
    intros grade. destruct (String.eqb grade "yes"); quiet_step.
Qed.

Lemma grade_documents_quiet (state : SelfState) :
  extends_by is_quiet (grade_documents state).
Proof.
  unfold grade_documents. destruct (_ >=? 2); [quiet_step|].
  apply extends_bind; [apply grade_each_quiet|]. intros ?. quiet_step.
Qed.

Lemma generate_quiet (state : SelfState) : extends_by is_quiet (generate state).
Proof.
  unfold generate. destruct (documents state); quiet_step.
Qed.

Lemma grade_generation_quiet (state : SelfState) :
  extends_by is_quiet (grade_generation_v_documents_and_question state).
Proof.
  unfold grade_generation_v_documents_and_question.
  destruct (_ || _); [quiet_step|].
  apply extends_try; [|intros ?; quiet_step].
  apply extends_bind; [quiet_step|]. intros grade.
  destruct (String.eqb grade "yes"); [|quiet_step].
  apply extends_bind; [quiet_step|]. intros grade'.
  destruct (String.eqb grade' "yes"); quiet_step.
Qed.

Lemma follow_extends (P : Call -> bool) (target : option Node)
  (state : SelfState) : extends_by P (follow target state).
Proof. destruct target; [apply extends_ret | apply extends_raise]. Qed.

Lemma transform_query_loop_call (state : SelfState) :
  extends_by is_loop_call (transform_query state).
Proof. unfold transform_query. quiet_step. Qed.

(** Outside the rewrite node a superstep adds no rewriter call. *)
Lemma step_quiet (n : Node) (state : SelfState) :
  n <> node_transform_query -> extends_by is_quiet (step n state).
Proof.
  intros Hn. destruct n; simpl; try congruence.
  - apply extends_bind; [apply retrieve_quiet|]. intros ?. quiet_step.
  - apply extends_bind; [apply grade_documents_quiet|]. intros ?.
    apply follow_extends.
  - apply extends_bind; [apply generate_quiet|]. intros ?.
    apply extends_bind; [apply grade_generation_quiet|]. intros ?.
    apply follow_extends.
  - quiet_step.
Qed.

Lemma step_loop_call (n : Node) (state : SelfState) :
  extends_by is_loop_call (step n state).
Proof.
  destruct n;
    try (eapply extends_weaken;
         [apply quiet_is_loop_call | apply step_quiet; discriminate]).
  simpl. apply extends_bind; [apply transform_query_loop_call|].
  intros ?. quiet_step.
Qed.

Lemma graph_invoke_END (limit : nat) (state : SelfState) :
  graph_invoke limit END state = ret state.
Proof. destruct limit; reflexivity. Qed.

Lemma graph_invoke_S (limit : nat) (n : Node) (state : SelfState) :
  n <> END ->
  graph_invoke (S limit) n state =
    (p <- step n state ;; graph_invoke limit (fst p) (snd p)).
Proof. destruct n; intros H; [reflexivity..|congruence]. Qed.

Lemma graph_invoke_O (n : Node) (state : SelfState) :
  n <> END -> graph_invoke O n state = raise "GraphRecursionError".
Proof. destruct n; intros H; [reflexivity..|congruence]. Qed.

Lemma graph_invoke_loop_call (limit : nat) :
  forall (n : Node) (state : SelfState),
    extends_by is_loop_call (graph_invoke limit n state).
Proof.
  induction limit as [|limit IH]; intros n state.
  - destruct n; simpl; quiet_step.
  - destruct n; try (rewrite graph_invoke_END; apply extends_ret);
      (rewrite graph_invoke_S by discriminate;
       apply extends_bind; [apply step_loop_call | intros p; apply IH]).
Qed.

Lemma run_within_loop_call (limit : nat) (q : string) :
  extends_by is_loop_call (run_within limit q).
Proof.
  unfold run_within. apply extends_try; [apply graph_invoke_loop_call|].
  intros ?. apply extends_ret.
Qed.

End LoopLogs.

(** ** The retry counter along an execution *)

Section Bound.
Import SelfFlow.

(** The rewrite node is the target of the grading edge only with an empty
    passage list and a retry count below 3. *)
Lemma decide_to_generate_target (state : SelfState) (n' : Node) :
  after_grade_documents (decide_to_generate state) = Some n' ->
  n' = node_generate
  \/ (n' = node_transform_query /\ get_retry_count state < 3
      /\ documents state = []).
Proof.
  unfold decide_to_generate. destruct (documents state) as [|d rest].
  - destruct (Z_lt_le_dec (get_retry_count state) 3) as [Hlt|Hge].
    + rewrite (geb_false _ _ Hlt). simpl. intros H; inversion H. now right.
    + rewrite (geb_true _ _ Hge). simpl. intros H; inversion H. now left.
  - simpl. intros H; inversion H. now left.
Qed.

(** The generation edge leaves for a node other than the end only with
    passages and a retry count below 2. *)
Lemma grade_generation_target (o : Oracle) (state : SelfState)
  (log log' : list Call) (label : string) (n' : Node) :
  grade_generation_v_documents_and_question state o log = (Returns label, log') ->
  after_generate label = Some n' ->
  n' = END
  \/ (get_retry_count state < 2 /\ documents state <> []
      /\ (n' = node_generate \/ n' = node_transform_query)).
Proof.
  unfold grade_generation_v_documents_and_question.
  destruct (Z_lt_le_dec (get_retry_count state) 2) as [Hlt|Hge].
  - rewrite (geb_false _ _ Hlt). simpl.
    destruct (documents state) as [|d rest] eqn:Hdocs; simpl.
    + unfold ret. intros H; inversion H; subst. simpl.
      intros H'; inversion H'. now left.
    + run_monad.
      destruct (o (List.length log) (HallucinationGrader _ _)) as [grade|e];
        simpl.
      * destruct (String.eqb grade "yes"); simpl.
        -- destruct (o _ (AnswerGrader _ _)) as [grade'|e]; simpl.
           ++ destruct (String.eqb grade' "yes");
                intros H; inversion H; subst; simpl;
                intros H'; inversion H'; auto.
           ++ intros H; inversion H; subst; simpl.
              intros H'; inversion H'. now left.
        -- intros H; inversion H; subst; simpl.
           intros H'; inversion H'. right. repeat split; auto.
      * intros H; inversion H; subst; simpl.
        intros H'; inversion H'. now left.
  - rewrite (geb_true _ _ Hge). simpl. unfold ret.
    intros H; inversion H; subst. simpl. intros H'; inversion H'. now left.
Qed.

(** The bound kept by every superstep: the retry count is at most 3, and
    below 3 whenever the rewrite node is about to run. *)
Definition within_retries (n : Node) (state : SelfState) : Prop :=
  get_retry_count state <= 3
  /\ (n = node_transform_query -> get_retry_count state < 3).

Lemma step_within_retries (o : Oracle) (n n' : Node)
  (state state' : SelfState) (log log' : list Call) :
  step n state o log = (Returns (n', state'), log') ->
  within_retries n state -> within_retries n' state'.
Proof.
  intros Hstep [Hle Hlt].
  pose proof (step_retry_count o n n' state state' log log' Hstep) as Hrc.
  revert Hstep. destruct n; unfold step, bind.
  - rewrite retrieve_run.
    destruct (o (List.length log) _); unfold ret; intros H; inversion H; subst.
    split; [lia | discriminate].
  - destruct (grade_documents_returns o state log) as (docs & l1 & -> & _).
    destruct (after_grade_documents _) as [t|] eqn:Ht; unfold follow, ret, raise;
      intros H; inversion H; subst.
    apply decide_to_generate_target in Ht as [->|(-> & Hlt' & _)].
    + split; [lia | discriminate].
    + split; [lia | intros _; exact Hlt'].
  - destruct (generate_returns o state log) as (answer & l1 & ->).
    destruct (grade_generation_v_documents_and_question _ o l1)
      as [[label|e] l2] eqn:Hedge; [|intros H; inversion H].
    destruct (after_generate label) as [t|] eqn:Ht; unfold follow, ret, raise;
      intros H; inversion H; subst.
    destruct (grade_generation_target o _ _ _ _ _ Hedge Ht)
      as [->|(Hlt' & _ & [->| ->])].
    + split; [lia | discriminate].
    + split; [lia | discriminate].
    + split; [lia|]. intros _. unfold get_retry_count in *. simpl in *. lia.
  - rewrite transform_query_run. unfold ret. intros H; inversion H; subst.
    split; [|discriminate]. specialize (Hlt eq_refl). lia.
  - unfold ret. intros H; inversion H; subst. split; [lia | discriminate].
Qed.

Lemma steps_within_retries (o : Oracle) (k : nat) :
  forall (n n' : Node) (state state' : SelfState) (log log' : list Call),
    steps k n state o log = (Returns (n', state'), log') ->
    within_retries n state -> within_retries n' state'.
Proof.
  induction k as [|k IH]; intros n n' state state' log log'; simpl.
  - unfold ret. intros H; inversion H; subst. auto.
  - unfold bind. destruct (step n state o log) as [[[n1 s1]|e] l1] eqn:Hstep;
      [|intros H; inversion H].
    simpl. intros Hrest Hinv.
    eapply IH; [exact Hrest|]. eapply step_within_retries; eauto.
Qed.

(** X1.  Along any execution that starts with a retry count of at most 3,
    and below 3 if it starts in the rewrite node, the retry count never
    exceeds 3, and the rewrite node is only ever entered with a retry count
    below 3.  An execution from the state [run] builds is such an
    execution. *)
Theorem retry_count_bounded (o : Oracle) (k : nat) (n n' : Node)
  (state state' : SelfState) (log log' : list Call) :
  get_retry_count state <= 3 ->
  (n = node_transform_query -> get_retry_count state < 3) ->
  steps k n state o log = (Returns (n', state'), log') ->
  get_retry_count state <= get_retry_count state' <= 3
  /\ (n' = node_transform_query -> get_retry_count state' < 3).
Proof.
  intros Hle Hlt Hsteps.
  destruct (steps_within_retries o k n n' state state' log log' Hsteps
              (conj Hle Hlt)) as [Hle' Hlt'].
  split; [split; [|exact Hle'] | exact Hlt'].
  eapply steps_retry_count; eauto.
Qed.

Lemma retry_count_bounded_witness :
  steps 9 entry_point (initial_state "q") (scripted [] "no" "no" "no") [] =
    (Returns (node_retrieve,
              mkState (Some 3) "rewritten rewritten rewritten q" "" []),
     [CompareEmbeddings "q"; QuestionRewriter ImprovedQuestion "q";
      CompareEmbeddings "rewritten q";
      QuestionRewriter SimplerBroaderQuestion "rewritten q";
      CompareEmbeddings "rewritten rewritten q";
      QuestionRewriter SimplerBroaderQuestion "rewritten rewritten q"])
  /\ get_retry_count (initial_state "q")
     <= get_retry_count
          (mkState (Some 3) "rewritten rewritten rewritten q" "" [])
     <= 3.
Proof.
  split; [reflexivity|].
  refine (proj1 (retry_count_bounded (scripted [] "no" "no" "no") 9
                   entry_point node_retrieve (initial_state "q")
                   (mkState (Some 3) "rewritten rewritten rewritten q" "" [])
                   [] _ _ _ eq_refl)).
  - cbv; congruence.
  - discriminate.
Defined.

(** Only the rewrite node adds a rewriter call, and it adds exactly one. *)
Lemma step_rewrites (o : Oracle) (n n' : Node) (state state' : SelfState)
  (log log' : list Call) :
  step n state o log = (Returns (n', state'), log') ->
  rewrites log' =
    (rewrites log + match n with node_transform_query => 1 | _ => 0 end)%nat.
Proof.
  intros Hstep.
  assert (Hquiet : n <> node_transform_query -> rewrites log' = rewrites log).
  { intros Hn. destruct (step_quiet n state Hn o log) as (ext & Hlog & Hext).
    rewrite Hstep in Hlog. simpl in Hlog. subst log'.
    now apply rewrites_quiet. }
  destruct n; try (rewrite Hquiet by discriminate; lia).
  revert Hstep. unfold step, bind. rewrite transform_query_run. unfold ret.
  intros H; inversion H; subst.
  unfold rewrites. rewrite List.filter_app, length_app. reflexivity.
Qed.

(** X2.  Along any execution the number of rewriter calls added to the log
    equals the increase of the retry count; so an execution from the state
    [run] builds has asked the rewriter exactly as many times as its retry
    count says. *)
Theorem rewrites_match_retry_count (o : Oracle) (k : nat) :
  forall (n n' : Node) (state state' : SelfState) (log log' : list Call),
    steps k n state o log = (Returns (n', state'), log') ->
    Z.of_nat (rewrites log') - Z.of_nat (rewrites log)
    = get_retry_count state' - get_retry_count state.
Proof.
  induction k as [|k IH]; intros n n' state state' log log'; simpl.
  - unfold ret. intros H; inversion H; subst. lia.
  - unfold bind. destruct (step n state o log) as [[[n1 s1]|e] l1] eqn:Hstep;
      [|intros H; inversion H].
    simpl. intros Hrest.
    apply IH in Hrest.
    pose proof (step_rewrites _ _ _ _ _ _ _ Hstep) as Hr.
    pose proof (step_retry_count _ _ _ _ _ _ _ Hstep) as Hc.
    destruct n; lia.
Qed.

Lemma rewrites_match_retry_count_witness :
  Z.of_nat (rewrites [CompareEmbeddings "q"; RetrievalGrader "q" "alpha";
                      QuestionRewriter ImprovedQuestion "q"])
  - Z.of_nat (rewrites [])
  = get_retry_count (mkState (Some 1) "rewritten q" "" [])
    - get_retry_count (initial_state "q").
Proof.
  apply (rewrites_match_retry_count
           (answering (fun _ => "no") self_flow [doc_a]) 3
           entry_point node_retrieve (initial_state "q")
           (mkState (Some 1) "rewritten q" "" []) []).
  reflexivity.
Defined.

End Bound.

(** ** Supersteps and [graph.invoke] *)

Section Invoke.
Import SelfFlow.

Lemma steps_END (k : nat) (state : SelfState) (o : Oracle) (log : list Call) :
  steps k END state o log = (Returns (END, state), log).
Proof. induction k as [|k IH]; simpl; [reflexivity|]. unfold bind. simpl. exact IH. Qed.


(** A run that returns has reached [END] within the limit. *)
Lemma graph_invoke_steps (limit : nat) :
  forall (n : Node) (state state' : SelfState) (o : Oracle)
         (log log' : list Call),
    graph_invoke limit n state o log = (Returns state', log') ->
    steps limit n state o log = (Returns (END, state'), log').
Proof.
  induction limit as [|limit IH]; intros n state state' o log log'.
  - destruct n; simpl; unfold ret, raise; intros H; inversion H. reflexivity.
  - destruct n; try (rewrite graph_invoke_S by discriminate; cbn [steps]; unfold bind;
                     destruct (step _ state o log) as [[p|e] l1];
                     [apply IH | intros H; inversion H]).
    rewrite graph_invoke_END, steps_END. unfold ret. intros H; inversion H.
    reflexivity.
Qed.


(** Supersteps that have not reached [END] are a prefix of the run. *)
Lemma graph_invoke_after_steps (k : nat) :
  forall (limit : nat) (n n1 : Node) (state s1 : SelfState) (o : Oracle)
         (log l1 : list Call),
    steps k n state o log = (Returns (n1, s1), l1) ->
    n1 <> END ->
    graph_invoke (k + limit) n state o log = graph_invoke limit n1 s1 o l1.
Proof.
  induction k as [|k IH]; intros limit n n1 state s1 o log l1.
  - simpl. unfold ret. intros H _; inversion H; subst. reflexivity.
  - intros Hsteps Hn1.
    destruct n; try (cbn [Nat.add]; rewrite graph_invoke_S by discriminate;
                     revert Hsteps; cbn [steps]; unfold bind;
                     destruct (step _ state o log) as [[p|e] l0];
                     [intros Hsteps; now apply IH | intros H; inversion H]).
    rewrite steps_END in Hsteps. inversion Hsteps; subst. congruence.
Qed.

(** A superstep that raises has added no rewriter call. *)
Lemma step_raises_rewrites (o : Oracle) (n : Node) (state : SelfState)
  (log log' : list Call) (e : Exn) :
  step n state o log = (Raises e, log') -> rewrites log' = rewrites log.
Proof.
  intros Hstep.
  assert (Hn : n <> node_transform_query).
  { intros ->. revert Hstep. unfold step, bind.
    rewrite transform_query_run. unfold ret. discriminate. }
  destruct (step_quiet n state Hn o log) as (ext & Hlog & Hext).
  rewrite Hstep in Hlog. simpl in Hlog. subst log'.
  now apply rewrites_quiet.
Qed.

(** However a run ends, it has asked the rewriter at most as many times as
    the retry count had left. *)
Lemma graph_invoke_rewrites (limit : nat) :
  forall (n : Node) (state : SelfState) (o : Oracle) (log : list Call),
    within_retries n state ->
    Z.of_nat (rewrites (snd (graph_invoke limit n state o log)))
      + get_retry_count state
    <= Z.of_nat (rewrites log) + 3.
Proof.
  induction limit as [|limit IH]; intros n state o log Hinv.
  - destruct Hinv as [Hle _]. destruct n; simpl; lia.
  - destruct n;
      try (rewrite graph_invoke_S by discriminate; unfold bind;
           destruct (step _ state o log) as [[[n1 s1]|e] l1] eqn:Hstep;
           [ pose proof (step_within_retries _ _ _ _ _ _ _ Hstep Hinv) as Hinv1;
             pose proof (step_rewrites _ _ _ _ _ _ _ Hstep) as Hr;
             pose proof (step_retry_count _ _ _ _ _ _ _ Hstep) as Hc;
             specialize (IH n1 s1 o l1 Hinv1); simpl in *; lia
           | apply step_raises_rewrites in Hstep; destruct Hinv as [Hle _];
             simpl; lia ]).
    rewrite graph_invoke_END. destruct Hinv as [Hle _]. simpl. lia.
Qed.

End Invoke.

(** ** [SelfFlow.run] *)

Section Run.
Import SelfFlow.

Lemma initial_within_retries (q : string) :
  within_retries entry_point (initial_state q).
Proof. split; [cbv; congruence | discriminate]. Qed.

(** However the graph ends, [run] returns, within the retry bound. *)
Lemma run_within_returns (limit : nat) (q : string) (o : Oracle)
  (log : list Call) :
  exists state ext,
    run_within limit q o log = (Returns state, log ++ ext)
    /\ 0 <= get_retry_count state <= 3
    /\ (rewrites ext <= 3)%nat
    /\ forallb is_loop_call ext = true.
Proof.
  destruct (run_within_loop_call limit q o log) as (ext & Hlog & Hext).
  pose proof (graph_invoke_rewrites limit entry_point (initial_state q) o log
                (initial_within_retries q)) as Hrw.
  revert Hlog Hrw. unfold run_within, try_except.
  destruct (graph_invoke limit entry_point (initial_state q) o log)
    as [[state|e] log1] eqn:Hrun; simpl; intros -> Hrw.
  - exists state, ext. split; [reflexivity|].
    apply graph_invoke_steps in Hrun.
    pose proof (steps_retry_count o limit _ _ _ _ _ _ Hrun) as Hlo.
    destruct (steps_within_retries o limit _ _ _ _ _ _ Hrun
                (initial_within_retries q)) as [Hhi _].
    assert (Hsplit : rewrites (log ++ ext) = (rewrites log + rewrites ext)%nat).
    { unfold rewrites. now rewrite List.filter_app, length_app. }
    change (get_retry_count (initial_state q)) with 0 in *.
    split; [lia|]. split; [lia|]. exact Hext.
  - exists (fallback_state q), ext. split; [reflexivity|].
    assert (Hsplit : rewrites (log ++ ext) = (rewrites log + rewrites ext)%nat).
    { unfold rewrites. now rewrite List.filter_app, length_app. }
    change (get_retry_count (initial_state q)) with 0 in *.
    split; [cbv; split; congruence|]. split; [lia|].
    exact Hext.
Qed.

(** X3.  [run] never raises, whatever the services do and whatever the step
    limit ([run] itself is [run_within] at the limit 15): it returns either
    the state the graph ended in or the apology.  The state it returns has a
    retry count between 0 and 3, the run has asked the rewriter at most 3
    times, and it has called neither the web search tool nor the web
    rewriter. *)
Theorem run_always_returns (limit : nat) (q : string) (o : Oracle)
  (log : list Call) :
  exists state ext,
    run_within limit q o log = (Returns state, log ++ ext)
    /\ 0 <= get_retry_count state <= 3
    /\ (rewrites ext <= 3)%nat
    /\ forallb (fun c => negb (is_web c)) ext = true.
Proof.
  destruct (run_within_returns limit q o log)
    as (state & ext & Hrun & Hrc & Hrw & Hext).
  exists state, ext. repeat split; try assumption; try apply Hrc.
  now apply loop_call_not_web.
Qed.

(** What each superstep does when the passage list is empty. *)
Lemma step_retrieve_run (o : Oracle) (state : SelfState) (log : list Call) :
  step node_retrieve state o log =
    (match o (List.length log) (CompareEmbeddings (question state)) with
     | Returns docs =>
         Returns (node_grade_documents,
                  {| retry_count := Some (get_retry_count state);
                     question := question state;
                     generation := generation state;
                     documents := docs |})
     | Raises e => Raises e
     end, log ++ [CompareEmbeddings (question state)]).
Proof.
  unfold step, bind. rewrite retrieve_run.
  destruct (o (List.length log) _); reflexivity.
Qed.




Section NoPassages.
Variable o : Oracle.
Hypothesis retrieval_empty :
  forall (n : nat) (q : string), o n (CompareEmbeddings q) = Returns [].



End NoPassages.



(** X5.  Retrieval is the one stage of the loop without a handler: when the
    vector index raises at a retrieval, however many supersteps (here [k])
    came before, the run is abandoned and [run] returns the apology for the
    original question, with retry count 0 and no passage, whatever had been
    rewritten before. *)
Theorem retrieval_fault_gives_apology (k limit : nat) (q : string)
  (o : Oracle) (log l1 : list Call) (s1 : SelfState) (e : Exn) :
  steps k entry_point (initial_state q) o log
    = (Returns (node_retrieve, s1), l1) ->
  o (List.length l1) (CompareEmbeddings (question s1)) = Raises e ->
  run_within (k + S limit) q o log =
    (Returns (fallback_state q), l1 ++ [CompareEmbeddings (question s1)]).
Proof.
  intros Hsteps Hraise. unfold run_within, try_except.
  rewrite (graph_invoke_after_steps k (S limit) _ _ _ _ _ _ _ Hsteps)
    by discriminate.
  rewrite graph_invoke_S by discriminate. unfold bind.
  rewrite step_retrieve_run, Hraise. reflexivity.
Qed.

Lemma retrieval_fault_gives_apology_witness :
  run "q" (failing_at 2 (answering (fun _ => "no") self_flow [])) [] =
    (Returns (fallback_state "q"),
     [CompareEmbeddings "q"; QuestionRewriter ImprovedQuestion "q";
      CompareEmbeddings "rewritten q"]).
Proof.
  apply (retrieval_fault_gives_apology 3 11 "q"
           (failing_at 2 (answering (fun _ => "no") self_flow [])) []
           [CompareEmbeddings "q"; QuestionRewriter ImprovedQuestion "q"]
           (mkState (Some 1) "rewritten q" "" []) "timeout");
    reflexivity.
Defined.

Section Unsupported.
Variable o : Oracle.
Hypothesis never_grounded :
  forall (n : nat) (docs : list Document) (answer : string),
    exists grade,
      o n (HallucinationGrader docs answer) = Returns grade
      /\ String.eqb grade "yes" = false.

(** With passages, a retry count below 2 and a hallucination grader that
    does not answer ["yes"], the generation node is followed by itself. *)
Lemma step_generate_again (state : SelfState) (log : list Call) :
  get_retry_count state < 2 -> documents state <> [] ->
  exists answer log',
    step node_generate state o log =
      (Returns (node_generate,
                {| retry_count := Some (get_retry_count state);
                   question := question state;
                   generation := answer;
                   documents := documents state |}), log').
Proof.
  intros Hlt Hne. unfold step. unfold bind at 1.
  destruct (generate_returns o state log) as (answer & l1 & ->).
  exists answer. unfold bind at 1.
  unfold grade_generation_v_documents_and_question.
  cbn [get_retry_count retry_count default from_option id documents question
       generation].
  fold (get_retry_count state). rewrite (geb_false _ _ Hlt).
  destruct (documents state) as [|d rest] eqn:Hdocs; [congruence|].
  cbn [no_documents orb]. unfold try_except, bind, invoke.
  destruct (never_grounded (List.length l1) (d :: rest) answer)
    as (grade & -> & ->).
  eexists. reflexivity.
Qed.

Lemma generation_repeats (k : nat) :
  forall (state : SelfState) (log : list Call),
    get_retry_count state < 2 -> documents state <> [] ->
    exists state' log',
      steps k node_generate state o log
        = (Returns (node_generate, state'), log')
      /\ get_retry_count state' = get_retry_count state
      /\ documents state' = documents state
      /\ question state' = question state.
Proof.
  induction k as [|k IH]; intros state log Hlt Hne.
  - exists state, log. repeat split; reflexivity.
  - destruct (step_generate_again state log Hlt Hne) as (a1 & l1 & Hstep).
    cbn [steps]. unfold bind. rewrite Hstep. cbn [fst snd].
    match goal with
    | |- context [steps k node_generate ?s o l1] =>
        destruct (IH s l1 Hlt Hne) as (s2 & l2 & H2 & Hrc & Hdocs & Hq)
    end.
    exists s2, l2. split; [exact H2|]. repeat split; assumption.
Qed.

Lemma generation_exhausts (limit : nat) (state : SelfState) (log : list Call) :
  get_retry_count state < 2 -> documents state <> [] ->
  exists log',
    graph_invoke limit node_generate state o log
      = (Raises "GraphRecursionError", log').
Proof.
  intros Hlt Hne.
  destruct (generation_repeats limit state log Hlt Hne)
    as (state' & log' & Hrun & _).
  exists log'.
  replace limit with (limit + 0)%nat at 1 by lia.
  rewrite (graph_invoke_after_steps limit 0 _ _ _ _ _ _ _ Hrun) by discriminate.
  reflexivity.
Qed.

End Unsupported.

(** X6.  The retry counter does not bound the loop from generation back to
    generation: with at least one passage, a retry count below 2 and a
    hallucination grader that never answers ["yes"], any number of supersteps
    from the generation node ends in the generation node again, with the same
    retry count, passages and question; so [graph.invoke] runs out of steps
    under every limit. *)
Theorem unsupported_answers_loop (o : Oracle) (state : SelfState) :
  (forall (n : nat) (docs : list Document) (answer : string),
     exists grade,
       o n (HallucinationGrader docs answer) = Returns grade
       /\ String.eqb grade "yes" = false) ->
  get_retry_count state < 2 -> documents state <> [] ->
  forall (k : nat) (log : list Call),
    (exists state' log',
       steps k node_generate state o log
         = (Returns (node_generate, state'), log')
       /\ get_retry_count state' = get_retry_count state
       /\ documents state' = documents state
       /\ question state' = question state)
    /\ (exists log',
       graph_invoke k node_generate state o log
         = (Raises "GraphRecursionError", log')).
Proof.
  intros Hnever Hlt Hne k log. split.
  - now apply generation_repeats.
  - now apply generation_exhausts.
Qed.

Lemma unsupported_answers_loop_witness :
  (exists state' log',
     steps 4 node_generate (mkState (Some 0) "q" "" [doc_a])
       (scripted [doc_a] "yes" "no" "yes") []
       = (Returns (node_generate, state'), log')
     /\ get_retry_count state' = 0
     /\ documents state' = [doc_a]
     /\ question state' = "q")
  /\ (exists log',
     graph_invoke 4 node_generate (mkState (Some 0) "q" "" [doc_a])
       (scripted [doc_a] "yes" "no" "yes") []
       = (Raises "GraphRecursionError", log')).
Proof.
  apply (unsupported_answers_loop (scripted [doc_a] "yes" "no" "yes")
           (mkState (Some 0) "q" "" [doc_a])).
  - intros n docs answer. exists "no". split; reflexivity.
  - cbv; congruence.
  - discriminate.
Defined.


(** The grading superstep at a retry count below 2, when a passage is
    kept. *)
Lemma step_grade_kept (o : Oracle) (state : SelfState) (log : list Call) :
  get_retry_count state < 2 ->
  graded_yes_or_failed o (List.length log) (question state) (documents state)
    <> [] ->
  step node_grade_documents state o log =
    (Returns (node_generate,
              {| retry_count := Some (get_retry_count state);
                 question := question state;
                 generation := generation state;
                 documents :=
                   graded_yes_or_failed o (List.length log) (question state)
                     (documents state) |}),
     log ++ grading_calls (question state) (documents state)).
Proof.
  intros Hlt Hkept. unfold step, bind.
  rewrite (grade_documents_strict o state log Hlt).
  unfold decide_to_generate. cbn [documents].
  destruct (graded_yes_or_failed _ _ _ _); [congruence|reflexivity].
Qed.

(** X7.  When the first retrieval returns passages of which at least one is
    kept, and the hallucination grader never answers ["yes"], no step limit
    is enough: [run] ends in the apology for the original question. *)
Theorem unsupported_answers_end_in_apology (limit : nat) (q : string)
  (o : Oracle) (log : list Call) (docs : list Document) :
  (forall (n : nat) (docs : list Document) (answer : string),
     exists grade,
       o n (HallucinationGrader docs answer) = Returns grade
       /\ String.eqb grade "yes" = false) ->
  o (List.length log) (CompareEmbeddings q) = Returns docs ->
  graded_yes_or_failed o (S (List.length log)) q docs <> [] ->
  exists ext,
    run_within limit q o log = (Returns (fallback_state q), log ++ ext).
Proof.
  intros Hnever Hret Hkept.
  destruct (run_within_loop_call limit q o log) as (ext & Hlog & _).
  exists ext. revert Hlog. unfold run_within, try_except.
  assert (Hraise : exists e log',
             graph_invoke limit entry_point (initial_state q) o log
               = (Raises e, log')).
  { destruct limit as [|[|limit]].
    - eexists _, _. reflexivity.
    - rewrite graph_invoke_S by discriminate. unfold bind.
      rewrite step_retrieve_run. cbn [initial_state question]. rewrite Hret.
      eexists _, _. reflexivity.
    - assert (Hkept1 :
        graded_yes_or_failed o
          (List.length (log ++ [CompareEmbeddings q])) q docs <> []).
      { now rewrite length_app, Nat.add_1_r. }
      rewrite graph_invoke_S by discriminate. unfold bind.
      rewrite step_retrieve_run. cbn [initial_state question]. rewrite Hret.
      cbn [fst snd]. rewrite graph_invoke_S by discriminate. unfold bind.
      rewrite step_grade_kept; [|cbv; congruence | exact Hkept1].
      cbn [fst snd].
      match goal with
      | |- context [graph_invoke limit node_generate ?s o ?l] =>
          destruct (generation_exhausts o Hnever limit s l) as (log' & ->);
            [cbv; congruence | exact Hkept1 |]
      end.
      eexists _, _. reflexivity. }
  destruct Hraise as (e & log' & ->). simpl. now intros ->.
Qed.

Lemma unsupported_answers_end_in_apology_witness :
  exists ext,
    run "q" (scripted [doc_a] "yes" "no" "yes") [] =
      (Returns (fallback_state "q"), [] ++ ext).
Proof.
  apply (unsupported_answers_end_in_apology recursion_limit "q"
           (scripted [doc_a] "yes" "no" "yes") [] [doc_a]).
  - intros n docs answer. exists "no". split; reflexivity.
  - reflexivity.
  - discriminate.
Defined.




End Run.

(** ** [AdaptiveFlow]: the branches and [run] *)

Section AdaptiveRun.
Import AdaptiveFlow.

(** [call_self_rag] forwards what the self-reflective run returned. *)
Lemma call_self_rag_run (state : AdaptiveState) (o : Oracle)
  (log : list Call) :
  exists (s : SelfFlow.SelfState) (ext : list Call),
    SelfFlow.run (question state) o log = (Returns s, log ++ ext)
    /\ call_self_rag state o log = (Returns (of_self_state s), log ++ ext)
    /\ forallb is_loop_call ext = true.
Proof.
  destruct (run_within_returns SelfFlow.recursion_limit (question state) o log)
    as (s & ext & Hrun & _ & _ & Hext).
  exists s, ext. split; [exact Hrun|]. split; [|exact Hext].
  unfold call_self_rag, try_except, bind, SelfFlow.run. rewrite Hrun.
  reflexivity.
Qed.

(** X9.  [call_self_rag] always returns what [SelfFlow.run] returned for the
    question of the state, copied field by field; since [SelfFlow.run] never
    raises, the handler of [call_self_rag] and its own fallback answer are
    never used. *)
Theorem call_self_rag_forwards_run (state : AdaptiveState) (o : Oracle)
  (log : list Call) :
  exists (s : SelfFlow.SelfState) (ext : list Call),
    SelfFlow.run (question state) o log = (Returns s, log ++ ext)
    /\ call_self_rag state o log = (Returns (of_self_state s), log ++ ext)
    /\ forallb is_loop_call ext = true.
Proof. apply call_self_rag_run. Qed.










(** X12.  [search_web] cannot tell an empty result from a failed search: when
    the tool returns no hit, the state it returns is the one it returns when
    the tool raises, with an empty pseudo-passage. *)
Theorem search_web_empty_is_failure (state : AdaptiveState)
  (o o' : Oracle) (log : list Call) (e : Exn) :
  o (List.length log) (WebSearchTool (question state)) = Returns [] ->
  o' (List.length log) (WebSearchTool (question state)) = Raises e ->
  search_web state o log = search_web state o' log
  /\ search_web state o log =
       (Returns {| question := question state;
                   generation := generation state;
                   documents := Some (SinglePassage (mkDocument "")) |},
        log ++ [WebSearchTool (question state)]).
Proof.
  intros Hempty Hraise. unfold search_web, try_except, bind, invoke.
  rewrite Hempty, Hraise. split; reflexivity.
Qed.

Lemma search_web_empty_is_failure_witness :
  search_web (initial_state "q") (scripted [] "yes" "yes" "yes") []
  = search_web (initial_state "q") all_raise [].
Proof.
  apply (search_web_empty_is_failure (initial_state "q")
           (scripted [] "yes" "yes" "yes") all_raise []
           "service unavailable"); reflexivity.
Defined.

End AdaptiveRun.

(** ** The corrective flow *)

Section Crag.
Import CragFlow.

Lemma graded_yes_length (o : Oracle) (q : string) (docs : list Document) :
  forall n : nat, (List.length (graded_yes o n q docs) <= List.length docs)%nat.
Proof.
  induction docs as [|d rest IH]; intros n; simpl; [lia|].
  destruct (o n (RetrievalGrader q (page_content d))) as [grade|e].
  - destruct (String.eqb grade "yes"); simpl; specialize (IH (S n)); lia.
  - specialize (IH (S n)); lia.
Qed.

(** The grading loop when every grading call returns: the passages graded
    ["yes"] are appended, and the flag becomes ["Yes"] as soon as one passage
    is not. *)
Lemma crag_grade_each_run (o : Oracle) (q : string) (docs : list Document) :
  forall (acc : list Document) (flag : string) (log : list Call),
    (forall i d, docs !! i = Some d ->
       exists grade,
         o (List.length log + i)%nat (RetrievalGrader q (page_content d))
           = Returns grade) ->
    exists flag',
      grade_each q docs acc flag o log =
        (Returns (acc ++ graded_yes o (List.length log) q docs, flag'),
         log ++ grading_calls q docs)
      /\ ((graded_yes o (List.length log) q docs = docs /\ flag' = flag)
          \/ ((List.length (graded_yes o (List.length log) q docs)
               < List.length docs)%nat /\ flag' = "Yes")).
Proof.
  induction docs as [|d rest IH]; intros acc flag log Hret.
  - exists flag. simpl. unfold ret. rewrite !app_nil_r. split; [reflexivity|].
    now left.
  - destruct (Hret O d eq_refl) as [grade Hd]. rewrite Nat.add_0_r in Hd.
    assert (Hrest : forall i d', rest !! i = Some d' ->
              exists g,
                o (List.length (log ++ [RetrievalGrader q (page_content d)]) + i)%nat
                  (RetrievalGrader q (page_content d')) = Returns g).
    { intros i d' Hi. destruct (Hret (S i) d' Hi) as [g Hg]. exists g.
      rewrite length_app, Nat.add_1_r. simpl.
      now rewrite <- Nat.add_succ_comm in Hg. }
    assert (Hlen : List.length (log ++ [RetrievalGrader q (page_content d)])
                   = S (List.length log)).
    { now rewrite length_app, Nat.add_1_r. }
    cbn [grade_each graded_yes]. unfold bind at 1. unfold invoke. rewrite Hd.
    destruct (String.eqb grade "yes").
    + destruct (IH (acc ++ [d]) flag _ Hrest) as (flag' & Hrun & Hflag).
      exists flag'. rewrite Hrun, Hlen. split.
      * unfold grading_calls. simpl. now rewrite <- !app_assoc.
      * rewrite Hlen in Hflag. destruct Hflag as [[Heq ->]|[Hlt ->]].
        -- left. now rewrite Heq.
        -- right. simpl. split; [lia | reflexivity].
    + destruct (IH acc "Yes" _ Hrest) as (flag' & Hrun & Hflag).
      exists flag'. rewrite Hrun, Hlen. split.
      * unfold grading_calls. simpl. now rewrite <- !app_assoc.
      * right. split.
        -- pose proof (graded_yes_length o q rest (S (List.length log))).
           simpl. lia.
        -- destruct Hflag as [[_ ->]|[_ ->]]; reflexivity.
Qed.

(** X13.  In the corrective flow, when every grading call returns, the
    grading stage keeps exactly the passages graded ["yes"], ignores the
    flag of the incoming state, and the edge after it leads to the rewrite
    (and from there to web search) exactly when at least one passage was
    dropped; when nothing was dropped, also when nothing was retrieved, it
    leads to generation. *)
Theorem crag_rewrites_iff_passage_dropped (state : CragState) (o : Oracle)
  (log : list Call) :
  (forall i d, documents state !! i = Some d ->
     exists grade,
       o (List.length log + i)%nat
         (RetrievalGrader (question state) (page_content d)) = Returns grade) ->
  exists state',
    grade_documents state o log =
      (Returns state', log ++ grading_calls (question state) (documents state))
    /\ documents state' =
         graded_yes o (List.length log) (question state) (documents state)
    /\ question state' = question state
    /\ (after_grade_documents (decide_to_generate state')
          = Some node_transform_query
        <-> documents state' <> documents state)
    /\ (after_grade_documents (decide_to_generate state') = Some node_generate
        <-> documents state' = documents state).
Proof.
  intros Hret. unfold grade_documents, bind.
  destruct (crag_grade_each_run o (question state) (documents state) [] "No"
              log Hret) as (flag' & -> & Hflag).
  eexists. split; [reflexivity|]. cbn [documents question fst snd].
  split; [reflexivity|]. split; [reflexivity|].
  unfold decide_to_generate. cbn [web_search snd].
  destruct Hflag as [[Heq ->]|[Hlt ->]]; simpl.
  - change (after_grade_documents "generate") with (Some node_generate).
    rewrite Heq. split; split; try congruence; try discriminate.
  - change (after_grade_documents "transform_query")
      with (Some node_transform_query).
    assert (Hne : graded_yes o (List.length log) (question state)
                    (documents state) <> documents state).
    { intros Heq. rewrite Heq in Hlt. lia. }
    split; split; try congruence; try discriminate.
Qed.

Lemma crag_rewrites_iff_passage_dropped_witness :
  (exists state',
     grade_documents (mkState "q" "" "Yes" [doc_a; doc_b])
       (answering (fun n => if Nat.eqb n 1 then "no" else "yes") self_flow []) []
     = (Returns state', [RetrievalGrader "q" "alpha"; RetrievalGrader "q" "beta"])
     /\ documents state' = [doc_a]
     /\ after_grade_documents (decide_to_generate state')
        = Some node_transform_query)
  /\ (exists state',
     grade_documents (mkState "q" "" "Yes" [])
       (answering (fun _ => "no") self_flow []) []
     = (Returns state', [])
     /\ documents state' = []
     /\ after_grade_documents (decide_to_generate state') = Some node_generate).
Proof.
  split.
  - destruct (crag_rewrites_iff_passage_dropped
                (mkState "q" "" "Yes" [doc_a; doc_b])
                (answering (fun n => if Nat.eqb n 1 then "no" else "yes")
                   self_flow []) [])
      as (state' & Hrun & Hdocs & _ & Hrewrite & _).
    { intros i d _. eexists. reflexivity. }
    exists state'. split; [exact Hrun|]. split; [exact Hdocs|].
    apply Hrewrite. rewrite Hdocs. discriminate.
  - destruct (crag_rewrites_iff_passage_dropped (mkState "q" "" "Yes" [])
                (answering (fun _ => "no") self_flow []) [])
      as (state' & Hrun & Hdocs & _ & _ & Hgenerate).
    { intros i d Hi. discriminate Hi. }
    exists state'. split; [exact Hrun|]. split; [exact Hdocs|].
    apply Hgenerate. exact Hdocs.
Defined.

(** The grading loop stops at the first grading call that raises. *)
Lemma crag_grade_each_raises (o : Oracle) (q : string) (d : Document)
  (post : list Document) (e : Exn) (pre : list Document) :
  forall (acc : list Document) (flag : string) (log : list Call),
    (forall i p, pre !! i = Some p ->
       exists grade,
         o (List.length log + i)%nat (RetrievalGrader q (page_content p))
           = Returns grade) ->
    o (List.length log + List.length pre)%nat
      (RetrievalGrader q (page_content d)) = Raises e ->
    grade_each q (pre ++ d :: post) acc flag o log =
      (Raises e,
       log ++ grading_calls q pre ++ [RetrievalGrader q (page_content d)]).
Proof.
  induction pre as [|p pre IH]; intros acc flag log Hret Hraise.
  - simpl in *. rewrite Nat.add_0_r in Hraise.
    unfold bind, invoke. now rewrite Hraise.
  - destruct (Hret O p eq_refl) as [grade Hp]. rewrite Nat.add_0_r in Hp.
    assert (Hlen : List.length (log ++ [RetrievalGrader q (page_content p)])
                   = S (List.length log)).
    { now rewrite length_app, Nat.add_1_r. }
    assert (Hret' : forall i p', pre !! i = Some p' ->
              exists g,
                o (List.length (log ++ [RetrievalGrader q (page_content p)]) + i)%nat
                  (RetrievalGrader q (page_content p')) = Returns g).
    { intros i p' Hi. destruct (Hret (S i) p' Hi) as [g Hg]. exists g.
      rewrite Hlen. simpl. now rewrite <- Nat.add_succ_comm in Hg. }
    assert (Hraise' :
              o (List.length (log ++ [RetrievalGrader q (page_content p)])
                 + List.length pre)%nat
                (RetrievalGrader q (page_content d)) = Raises e).
    { rewrite Hlen. simpl in *. now rewrite <- Nat.add_succ_comm in Hraise. }
    cbn [app grade_each]. unfold bind at 1. unfold invoke. rewrite Hp.
    destruct (String.eqb grade "yes");
      rewrite (IH _ _ _ Hret' Hraise'); unfold grading_calls; simpl;
      now rewrite <- !app_assoc.
Qed.

(** X14.  The grading stage of the corrective flow has no handler: the first
    grading call that raises ends the stage with that fault, and the passages
    after it are not graded (the self-reflective loop keeps such a passage
    and goes on). *)
Theorem crag_grading_fault_propagates (state : CragState) (o : Oracle)
  (log : list Call) (pre post : list Document) (d : Document) (e : Exn) :
  documents state = pre ++ d :: post ->
  (forall i p, pre !! i = Some p ->
     exists grade,
       o (List.length log + i)%nat
         (RetrievalGrader (question state) (page_content p)) = Returns grade) ->
  o (List.length log + List.length pre)%nat
    (RetrievalGrader (question state) (page_content d)) = Raises e ->
  grade_documents state o log =
    (Raises e,
     log ++ grading_calls (question state) pre
         ++ [RetrievalGrader (question state) (page_content d)]).
Proof.
  intros Hdocs Hret Hraise. unfold grade_documents, bind. rewrite Hdocs.
  now rewrite (crag_grade_each_raises o _ d post e pre [] "No" log Hret Hraise).
Qed.

Lemma crag_grading_fault_propagates_witness :
  grade_documents (mkState "q" "" "" [doc_a; doc_b; doc_c])
    (failing_at 1 (answering (fun _ => "yes") self_flow [])) [] =
    (Raises "timeout", [RetrievalGrader "q" "alpha"; RetrievalGrader "q" "beta"]).
Proof.
  apply (crag_grading_fault_propagates
           (mkState "q" "" "" [doc_a; doc_b; doc_c])
           (failing_at 1 (answering (fun _ => "yes") self_flow [])) []
           [doc_a] [doc_c] doc_b "timeout").
  - reflexivity.
  - intros [|i] p Hi; [eexists; reflexivity | destruct i; discriminate Hi].
  - reflexivity.
Defined.



End Crag.

(** ** Upload batches *)

Section Batches.
Import PineConeHandler.
Context {A : Type}.

(** Consecutive slices of width [b] put together give a prefix. *)
Lemma slices_concat (b : nat) (l : list A) (m : nat) :
  concat (map (fun k => take b (drop (k * b) l)) (seq 0 m)) = take (m * b) l.
Proof.
  induction m as [|m IH]; [reflexivity|].
  rewrite seq_S, map_app, concat_app, IH. simpl.
  rewrite app_nil_r, take_take_drop. f_equal. lia.
Qed.

Lemma batches_slices (records : list A) :
  batches records =
    map (fun k => take batch_size (drop (k * batch_size) records))
      (seq 0 ((List.length records + batch_size - 1) / batch_size)).
Proof.
  unfold batches, range_from_zero, slice. rewrite map_map.
  apply map_ext. intros k. f_equal. lia.
Qed.

Lemma batch_count_bounds (n : nat) :
  let m := ((n + batch_size - 1) / batch_size)%nat in
  (n <= m * batch_size /\ (m * batch_size < n + batch_size))%nat.
Proof.
  cbv zeta. unfold batch_size.
  pose proof (Nat.div_mod_eq (n + 95 - 1) 95) as Hdiv.
  pose proof (Nat.mod_upper_bound (n + 95 - 1) 95 ltac:(lia)) as Hmod.
  lia.
Qed.

(** X16.  The upload loop cuts the records into consecutive batches: put end
    to end the batches are the records, in order, nothing lost and nothing
    sent twice; there are [ceil(n / 95)] of them (none for no record); no
    batch is empty, none has more than 95 records, and every batch but the
    last has exactly 95. *)
Theorem batches_partition (records : list A) :
  concat (batches records) = records
  /\ List.length (batches records)
     = ((List.length records + 94) / 95)%nat
  /\ (forall k batch,
        batches records !! k = Some batch ->
        batch = take 95 (drop (k * 95)%nat records)
        /\ (0 < List.length batch <= 95)%nat
        /\ ((S k < List.length (batches records))%nat ->
            List.length batch = 95%nat)).
Proof.
  pose proof (batch_count_bounds (List.length records)) as Hm. cbv zeta in Hm.
  rewrite batches_slices.
  set (m := ((List.length records + batch_size - 1) / batch_size)%nat) in *.
  split; [|split].
  - rewrite slices_concat. apply take_ge. lia.
  - rewrite length_map, length_seq. unfold m, batch_size. f_equal. lia.
  - intros k batch.
    change (map ?f ?l) with (f <$> l).
    rewrite list_lookup_fmap, length_fmap, length_seq.
    destruct (seq 0 m !! k) as [k'|] eqn:Hk; [|discriminate].
    apply lookup_seq in Hk as [-> Hlt]. simpl.
    intros H; inversion H; subst. clear H. unfold batch_size in *.
    split; [reflexivity|].
    rewrite length_take, length_drop.
    split; [lia|]. intros Hnext. lia.
Qed.

End Batches.

Lemma batches_partition_witness :
  PineConeHandler.batches (seq 0 200) !! 2%nat = Some (seq 190 10)
  /\ (0 < List.length (seq 190 10) <= 95)%nat.
Proof.
  split; [reflexivity|].
  destruct (batches_partition (seq 0 200)) as (_ & _ & H).
  apply (H 2%nat (seq 190 10)). reflexivity.
Defined.

(** ** Record ids of the uploaded dataset *)

Lemma pretty_N_char_no_dash (x : N) : pretty_N_char x <> "-"%char.
Proof. unfold pretty_N_char. repeat case_match; discriminate. Qed.

Lemma pretty_N_go_no_dash (x : N) :
  forall s : string, no_dash s -> no_dash (pretty_N_go x s).
Proof.
  induction (N.lt_wf_0 x) as [x _ IH]; intros s Hs.
  destruct (N.eq_0_gt_0_cases x) as [->|Hpos].
  - now rewrite pretty_N_go_0.
  - rewrite pretty_N_go_step by exact Hpos. apply IH.
    + apply N.div_lt; [exact Hpos | reflexivity].
    + split; [apply pretty_N_char_no_dash | exact Hs].
Qed.

(** The decimal rendering of a natural number has no [-]. *)
Lemma pretty_nat_no_dash (n : nat) : no_dash (pretty n).
Proof.
  unfold pretty, pretty_nat, pretty, pretty_N. case_decide.
  - split; [discriminate | exact I].
  - apply pretty_N_go_no_dash. exact I.
Qed.

(** Two dash-free strings followed by a [-] are read back unambiguously. *)
Lemma no_dash_prefix (a : string) :
  forall (a' r r' : string),
    no_dash a -> no_dash a' ->
    a +:+ String "-" r = a' +:+ String "-" r' -> a = a' /\ r = r'.
Proof.
  induction a as [|c a IH]; intros [|c' a'] r r' Ha Ha'; simpl.
  - intros H; inversion H. now split.
  - intros H; inversion H; subst. destruct Ha' as [Hc _]. congruence.
  - intros H; inversion H; subst. destruct Ha as [Hc _]. congruence.
  - intros H; inversion H; subst.
    destruct Ha as [_ Ha]. destruct Ha' as [_ Ha'].
    destruct (IH a' r r' Ha Ha' ltac:(assumption)) as [-> ->]. now split.
Qed.

Lemma record_id_inj (idx j idx' j' : nat) :
  PineConeHandler.record_id idx j = PineConeHandler.record_id idx' j' ->
  idx = idx' /\ j = j'.
Proof.
  unfold PineConeHandler.record_id. simpl. intros H; inversion H as [Hrest].
  apply no_dash_prefix in Hrest as [Hidx Hj]; try apply pretty_nat_no_dash.
  inversion Hj as [Hj'].
  split; [now apply (inj pretty) | now apply (inj pretty)].
Qed.

Section RecordIds.
Import PineConeHandler.
Variable split_text : string -> list string.

Lemma elem_of_concat {A} (x : A) (ls : list (list A)) :
  x ∈ concat ls <-> exists l, l ∈ ls /\ x ∈ l.
Proof.
  induction ls as [|l0 ls IH]; simpl.
  - split; [intros H; inversion H | intros (l & H & _); inversion H].
  - rewrite elem_of_app, IH. split.
    + intros [H|(l & Hl & Hx)].
      * exists l0. split; [left | exact H].
      * exists l. split; [now right | exact Hx].
    + intros (l & Hl & Hx). apply elem_of_cons in Hl as [->|Hl].
      * now left.
      * right. eauto.
Qed.

Lemma row_record_ids (idx : nat) (row : string * string) :
  _id <$> row_records split_text idx row =
    record_id idx <$> seq 0 (List.length (split_text (combined_text row.1 row.2))).
Proof.
  unfold row_records. rewrite fmap_imap.
  generalize (split_text (combined_text row.1 row.2)) as chunks.
  intros chunks.
  change (imap (fun n chunk => record_id idx (0 + n)) chunks =
          record_id idx <$> seq 0 (List.length chunks)).
  generalize 0%nat as s. induction chunks as [|chunk chunks IH]; intros s.
  - reflexivity.
  - simpl. rewrite Nat.add_0_r. f_equal.
    rewrite <- IH. apply imap_ext. intros i x _. simpl.
    now rewrite Nat.add_succ_r.
Qed.

Lemma row_record_id (idx : nat) (row : string * string) (r : UpsertRecord) :
  r ∈ row_records split_text idx row -> exists j, _id r = record_id idx j.
Proof.
  unfold row_records. intros (j & chunk & -> & _)%elem_of_lookup_imap_1.
  exists j. reflexivity.
Qed.

Lemma rows_record_id (rows : list (string * string)) :
  forall (s : nat) (r : UpsertRecord),
    r ∈ concat (imap (fun i => row_records split_text (s + i)) rows) ->
    exists i j, _id r = record_id (s + i) j.
Proof.
  intros s r (l & Hl & Hr)%elem_of_concat.
  apply elem_of_lookup_imap_1 in Hl as (i & row & -> & _).
  apply row_record_id in Hr as [j Hj]. eauto.
Qed.

Lemma rows_record_ids_NoDup (rows : list (string * string)) :
  forall s : nat,
    NoDup (_id <$> concat (imap (fun i => row_records split_text (s + i)) rows)).
Proof.
  induction rows as [|row rows IH]; intros s; [constructor|].
  rewrite imap_cons. cbn [concat]. rewrite fmap_app.
  apply NoDup_app. split; [|split].
  - rewrite row_record_ids. apply NoDup_fmap_2_strong; [|apply NoDup_seq].
    intros j j' _ _ H. now apply record_id_inj in H.
  - intros x (r & -> & Hr)%list_elem_of_fmap_1 (r' & Heq & Hr')%list_elem_of_fmap_1.
    apply row_record_id in Hr as [j Hj].
    assert (Hrest : r' ∈ concat (imap (fun i => row_records split_text (S s + i)) rows)).
    { erewrite imap_ext; [exact Hr'|]. intros i y _. simpl.
      now rewrite Nat.add_succ_r. }
    apply rows_record_id in Hrest as (i & j' & Hj').
    rewrite Heq, Hj' in Hj. apply record_id_inj in Hj as [Hidx _]. lia.
  - erewrite imap_ext; [apply (IH (S s))|]. intros i y _. simpl.
    now rewrite Nat.add_succ_r.
Qed.

(** X17.  No two records of the uploaded dataset have the same id, whatever
    the text splitter returns, so no record overwrites another in the index;
    and every chunk of every row is in the records under the id of its row
    number and chunk number, with the question of the row. *)
Theorem dataset_record_ids_unique (rows : list (string * string)) :
  NoDup (map _id (dataset_records split_text rows))
  /\ (forall idx row j chunk,
        rows !! idx = Some row ->
        split_text (combined_text row.1 row.2) !! j = Some chunk ->
        {| _id := record_id idx j;
           text := chunk;
           category := "ml-qa";
           question := row.1 |} ∈ dataset_records split_text rows).
Proof.
  split.
  - exact (rows_record_ids_NoDup rows 0).
  - intros idx row j chunk Hrow Hchunk. unfold dataset_records.
    apply elem_of_concat. exists (row_records split_text idx row). split.
    + now apply elem_of_lookup_imap_2.
    + unfold row_records.
      apply (elem_of_lookup_imap_2
               (fun j chunk => {| _id := record_id idx j; text := chunk;
                                  category := "ml-qa"; question := row.1 |})).
      exact Hchunk.
Qed.

End RecordIds.

Lemma dataset_record_ids_unique_witness :
  PineConeHandler.mkRecord "qa-1-chunk-0"
    (PineConeHandler.combined_text "q1" "a1") "ml-qa" "q1"
    ∈ PineConeHandler.dataset_records (fun s : string => [s; s])
        [("q0", "a0"); ("q1", "a1")].
Proof.
  destruct (dataset_record_ids_unique (fun s : string => [s; s])
              [("q0", "a0"); ("q1", "a1")]) as (_ & H).
  apply (H 1%nat ("q1", "a1") 0%nat (PineConeHandler.combined_text "q1" "a1"));
    reflexivity.
Defined.
